(** * Scarecrow: listener orchestration and admin command interception

  A shallow embedding of the [scarecrow] package of
  [src/cmd/scarecrow/main.go] (the file holds the [main] entry point, the
  README and the [scarecrow] package; the embedded functions are
  [StartAllBots], [Shutdown], [IsAdmin], [ManageListener], [OnMessage] and
  [OnStopped]).

  Go strings are byte sequences: they are modelled by [string] (a list of
  8-bit [ascii] characters).  The state of the [*Scarecrow] receiver is
  passed explicitly, and everything a function does to the outside world
  (channel sends, collaborator calls, goroutine spawns) is recorded, in
  program order, in a list of events.  [log.Debug/Info/Warn/Error] calls
  only print and are left out. *)

From Stdlib Require Import ZArith Ascii String List Lia Bool.
From stdpp Require Import base gmap strings list fin_maps.

Open Scope Z_scope.

(* ===================================================================== *)
(** ** Go standard library: [strings], [fmt] and [regexp]                 *)
(* ===================================================================== *)

Module GoStrings.

(** [byteIn cutset c]: the byte [c] occurs in [cutset]. *)
Fixpoint byteIn (cutset : string) (c : ascii) : bool :=
  match cutset with
  | EmptyString => false
  | String d rest => if Ascii.eqb c d then true else byteIn rest c
  end.

(** [strings.TrimLeft(s, cutset)] for a cutset of ASCII bytes. *)
Fixpoint TrimLeft (s cutset : string) : string :=
  match s with
  | EmptyString => EmptyString
  | String c rest => if byteIn cutset c then TrimLeft rest cutset else s
  end.

(** [strings.TrimRight(s, cutset)] for a cutset of ASCII bytes. *)
Fixpoint TrimRight (s cutset : string) : string :=
  match s with
  | EmptyString => EmptyString
  | String c rest =>
      match TrimRight rest cutset with
      | EmptyString => if byteIn cutset c then EmptyString else String c EmptyString
      | kept => String c kept
      end
  end.

(** [strings.Trim(s, cutset)]: all leading and trailing bytes contained in
    [cutset] removed. *)
Definition Trim (s cutset : string) : string :=
  TrimRight (TrimLeft s cutset) cutset.

(** [strings.HasPrefix(s, prefix)]. *)
Fixpoint HasPrefix (s prefix : string) {struct prefix} : bool :=
  match prefix, s with
  | EmptyString, _ => true
  | String p prefix', String c s' => if Ascii.eqb c p then HasPrefix s' prefix' else false
  | String _ _, EmptyString => false
  end.

(** [strings.Index(s, substr)]: the index of the first instance of
    [substr] in [s], or -1 if there is none. *)
Fixpoint Index (s substr : string) : Z :=
  if HasPrefix s substr then 0
  else match s with
       | EmptyString => -1
       | String _ rest =>
           let i := Index rest substr in
           if i <? 0 then -1 else i + 1
       end.

(** [fmt.Sprintf("%s-%s", a, b)]. *)
Definition Sprintf_s_dash_s (a b : string) : string :=
  a +:+ "-" +:+ b.

(** [fmt.Sprintf("%s" + suffix, a)] for a literal suffix without verbs. *)
Definition Sprintf_s_lit (a suffix : string) : string :=
  a +:+ suffix.

(** The spaces written by the claims about trimming. *)
Fixpoint spaces (n : nat) : string :=
  match n with
  | O => EmptyString
  | S k => String " "%char (spaces k)
  end.

(** Last byte of a string, if any. *)
Fixpoint last_byte (s : string) : option ascii :=
  match s with
  | EmptyString => None
  | String c EmptyString => Some c
  | String _ rest => last_byte rest
  end.

Definition first_byte (s : string) : option ascii :=
  match s with
  | EmptyString => None
  | String c _ => Some c
  end.

End GoStrings.

Module GoRegexp.

(** The two regular expressions of the package have the same shape,
    [^<literal>(<class>+?)$]: a literal prefix, then one capture group
    holding one or more bytes of a character class, anchored at both ends
    ([$] is the end of the text: no [(?m)] flag is set). *)
Record Regexp := MustCompile {
  re_literal : string;
  re_class : ascii -> bool
}.

(** [s] without the prefix [lit], when [s] starts with it. *)
Fixpoint cut_literal (lit s : string) {struct lit} : option string :=
  match lit, s with
  | EmptyString, _ => Some s
  | String p lit', String c s' => if Ascii.eqb c p then cut_literal lit' s' else None
  | String _ _, EmptyString => None
  end.

Fixpoint all_in_class (cls : ascii -> bool) (s : string) : bool :=
  match s with
  | EmptyString => true
  | String c rest => cls c && all_in_class cls rest
  end.

(** [<class>+] on the whole of [s]: at least one byte, every byte in the
    class. *)
Definition class_plus (cls : ascii -> bool) (s : string) : bool :=
  match s with
  | EmptyString => false
  | String _ _ => all_in_class cls s
  end.

(** [re.FindStringSubmatch(s)]: [nil] when there is no match, otherwise
    the whole match followed by the text of the capture group.  Both
    anchors make the match, when there is one, the whole of [s], so the
    lazy [+?] captures everything after the literal. *)
Definition FindStringSubmatch (re : Regexp) (s : string) : list string :=
  match cut_literal (re_literal re) s with
  | Some rest => if class_plus (re_class re) rest then [s; rest] else []
  | None => []
  end.

End GoRegexp.

(* ===================================================================== *)
(** ** Package [types]: envelopes and configuration                       *)
(* ===================================================================== *)

(** A Go channel is identified by a number; [make(chan ...)] takes the next
    free one. *)
Definition chan := nat.

Module types.

(** [types.ReplyRequest], as [OnMessage] reads it. *)
Record ReplyRequest := mkReplyRequest {
  Listener : string;
  Username : string;
  BotUsername : string;
  Message : string;
  GroupChat : bool
}.

(** [types.ReplyAnswer{Username, Message}]. *)
Record ReplyAnswer := mkReplyAnswer {
  AnswerUsername : string;
  AnswerMessage : string
}.

(** [types.Stopped]. *)
Record Stopped := mkStopped {
  ListenerId : string
}.

(** The dynamic type of [CommunicationChannel.Data] (an [interface{}]):
    the four envelope variants, and anything else. *)
Inductive Data :=
| DReplyRequest (req : ReplyRequest)
| DReplyAnswer (ans : ReplyAnswer)
| DStop
| DStopped (ev : Stopped)
| DOther.

(** [types.CommunicationChannel{Data: ...}]. *)
Record CommunicationChannel := mkCommunicationChannel {
  Data_ : Data
}.

(** [types.ListenerConfig]: the fields [StartAllBots] reads. *)
Record ListenerConfig := mkListenerConfig {
  Id : string;
  Type_ : string;
  Enabled : bool
}.

(** [types.BotsConfig]. *)
Record BotsConfig := mkBotsConfig {
  Listeners : list ListenerConfig
}.

(** [types.AdminsConfig]. *)
Record AdminsConfig := mkAdminsConfig {
  Admins : list string
}.

End types.

Module listeners.

(** [listeners.Listener] is an interface with [Start()] and
    [InputChannel()].  A value of it is modelled by what [InputChannel()]
    returns; [Start()] is an effect, recorded as an event. *)
Record Listener := mkListener {
  InputChannel : chan
}.

End listeners.

(** [db.DB]: the readiness flag. *)
Record DB := mkDB {
  Ready : bool
}.

(* ===================================================================== *)
(** ** Collaborators that are not part of the package                     *)
(* ===================================================================== *)

(** The reply engine, the listener registry and the two runtime behaviours
    the package depends on.  [InitBrain] and [GetReply] are methods of
    [*Scarecrow] defined elsewhere; they are taken to act on the [Brain]
    field only.  [SaveAdminsConfig] and [LogTransaction] write to disk and
    appear as events. *)
Class Collaborators := {
  (** [*rivescript.RiveScript] *)
  RiveScript : Type;
  (** [self.InitBrain()] *)
  InitBrain : RiveScript -> RiveScript;
  (** [self.GetReply(botUsername, username, message, group)] *)
  GetReply : RiveScript -> string -> string -> string -> bool -> string * RiveScript;
  (** [strings.ToLower]: it decodes UTF-8 and lower-cases every rune; no
      property below depends on what it returns. *)
  ToLower : string -> string;
  (** [listeners.Create(type, config, request, answer)]; [None] is the
      error result. *)
  Create : string -> types.ListenerConfig -> chan -> chan -> option listeners.Listener;
  (** The order in which a [for ... range] visits a Go map: unspecified,
      but every entry once. *)
  range_map : gmap string listeners.Listener -> list (string * listeners.Listener);
  range_map_perm : forall m, range_map m ≡ₚ map_to_list m
}.

(* ===================================================================== *)
(** ** Package [scarecrow]                                                *)
(* ===================================================================== *)

(** [[A-Za-z0-9\.@\-_]]. *)
Definition name_class (c : ascii) : bool :=
  let n := N_of_ascii c in
  ((65 <=? n) && (n <=? 90))%N        (* A-Z *)
  || ((97 <=? n) && (n <=? 122))%N    (* a-z *)
  || ((48 <=? n) && (n <=? 57))%N     (* 0-9 *)
  || Ascii.eqb c "."%char || Ascii.eqb c "@"%char
  || Ascii.eqb c "-"%char || Ascii.eqb c "_"%char.

(** [RE_OP = regexp.MustCompile(`^!op ([A-Za-z0-9\.@\-_]+?)$`)] *)
Definition RE_OP : GoRegexp.Regexp := GoRegexp.MustCompile "!op " name_class.

(** [RE_DEOP = regexp.MustCompile(`^!deop ([A-Za-z0-9\.@\-_]+?)$`)] *)
Definition RE_DEOP : GoRegexp.Regexp := GoRegexp.MustCompile "!deop " name_class.

(** Events, in the order the program performs them. *)
Inductive event :=
| EvInitBrain
| EvSaveAdminsConfig (cfg : types.AdminsConfig)
| EvLogTransaction (uid input botUsername reply : string)
| EvGetReply (botUsername uid message : string) (group : bool)
| EvSend (c : chan) (msg : types.CommunicationChannel)
| EvGoManageListener (request answer : chan)
| EvStart (id : string) (l : listeners.Listener).

Section Scarecrow.

Context `{C : Collaborators}.

(** [type Scarecrow struct].  [NextChan] is the allocator behind
    [make(chan ...)]. *)
Record Scarecrow := mkScarecrow {
  Debug : bool;
  DB_ : DB;
  AdminsConfig : types.AdminsConfig;
  BotsConfig : types.BotsConfig;
  Brain : RiveScript;
  Listeners : gmap string listeners.Listener;
  NextChan : chan
}.

Definition set_AdminsConfig (self : Scarecrow) (a : types.AdminsConfig) : Scarecrow :=
  mkScarecrow (Debug self) (DB_ self) a (BotsConfig self) (Brain self)
              (Listeners self) (NextChan self).

Definition set_Brain (self : Scarecrow) (b : RiveScript) : Scarecrow :=
  mkScarecrow (Debug self) (DB_ self) (AdminsConfig self) (BotsConfig self) b
              (Listeners self) (NextChan self).

Definition set_Listeners (self : Scarecrow) (m : gmap string listeners.Listener) : Scarecrow :=
  mkScarecrow (Debug self) (DB_ self) (AdminsConfig self) (BotsConfig self) (Brain self)
              m (NextChan self).

Definition set_NextChan (self : Scarecrow) (n : chan) : Scarecrow :=
  mkScarecrow (Debug self) (DB_ self) (AdminsConfig self) (BotsConfig self) (Brain self)
              (Listeners self) n.

(** What a function leaves behind: the state when it returned or when
    [os.Exit] was called, and the exit status in the second case. *)
Record result := mkResult {
  state : Scarecrow;
  exited : option Z
}.

(** [func (self *Scarecrow) StartAllBots()]: the body of the [range] loop,
    over the registrations still to visit. *)
Fixpoint StartAllBots_loop (todo : list types.ListenerConfig) (self : Scarecrow)
    : result * list event :=
  match todo with
  | [] => (mkResult self None, [])
  | listener :: rest =>
      if negb (types.Enabled listener) then StartAllBots_loop rest self
      else
        match Listeners self !! types.Id listener with
        | Some _ => (mkResult self (Some 1), [])
        | None =>
            let request := NextChan self in
            let answer := S (NextChan self) in
            let self := set_NextChan self (S (S (NextChan self))) in
            match Create (types.Type_ listener) listener request answer with
            | None => StartAllBots_loop rest self
            | Some constructor =>
                let self := set_Listeners self
                              (<[types.Id listener := constructor]> (Listeners self)) in
                let '(r, tr) := StartAllBots_loop rest self in
                (r, EvGoManageListener request answer
                      :: EvStart (types.Id listener) constructor :: tr)
            end
        end
  end.

Definition StartAllBots (self : Scarecrow) : result * list event :=
  if negb (Ready (DB_ self)) then (mkResult self None, [])
  else StartAllBots_loop (types.Listeners (BotsConfig self)) self.

(** [func (self *Scarecrow) Shutdown()]. *)
Definition Shutdown (self : Scarecrow) : list event :=
  map (fun '(id, bot) =>
         EvSend (listeners.InputChannel bot) (types.mkCommunicationChannel types.DStop))
      (range_map (Listeners self)).

(** [func (self *Scarecrow) IsAdmin(username string) bool]. *)
Fixpoint IsAdmin_loop (admins : list string) (username : string) : bool :=
  match admins with
  | [] => false
  | user :: rest => if String.eqb user username then true else IsAdmin_loop rest username
  end.

Definition IsAdmin (self : Scarecrow) (username : string) : bool :=
  IsAdmin_loop (types.Admins (AdminsConfig self)) username.

(** The loop of the [!deop] branch: [newAdmins] collects, in order, the
    names different from [opName]. *)
Fixpoint deop_loop (admins : list string) (opName : string) : list string :=
  match admins with
  | [] => []
  | name :: rest =>
      if negb (String.eqb name opName) then name :: deop_loop rest opName
      else deop_loop rest opName
  end.

(** The command part of [OnMessage] (the body of [if self.IsAdmin(uid)]):
    the state, the value of [reply], whether [defer self.Shutdown()] was
    executed, and the events. *)
Definition OnMessage_command (self : Scarecrow) (input : string)
    : Scarecrow * string * bool * list event :=
  if GoStrings.Index input "!reload" =? 0 then
    (set_Brain self (InitBrain (Brain self)), "Brain reloaded!", false, [EvInitBrain])
  else if GoStrings.Index input "!op" =? 0 then
    let match_ := GoRegexp.FindStringSubmatch RE_OP input in
    if (0 <? Z.of_nat (length match_)) then
      let opName := nth 1 match_ "" in
      let self := set_AdminsConfig self
                    (types.mkAdminsConfig (types.Admins (AdminsConfig self) ++ [opName])) in
      (self, GoStrings.Sprintf_s_lit opName " added to the admins list.", false,
       [EvSaveAdminsConfig (AdminsConfig self)])
    else (self, "Syntax error.", false, [])
  else if GoStrings.Index input "!deop" =? 0 then
    let match_ := GoRegexp.FindStringSubmatch RE_DEOP input in
    if (0 <? Z.of_nat (length match_)) then
      let opName := nth 1 match_ "" in
      let newAdmins := deop_loop (types.Admins (AdminsConfig self)) opName in
      let self := set_AdminsConfig self (types.mkAdminsConfig newAdmins) in
      (self, GoStrings.Sprintf_s_lit opName " removed from the admins list.", false,
       [EvSaveAdminsConfig (AdminsConfig self)])
    else (self, "Syntax error.", false, [])
  else if GoStrings.Index input "!halt" =? 0 then
    (self, "Shutting down...", true, [])
  else (self, "", false, []).

(** [uid := fmt.Sprintf("%s-%s", req.Listener, strings.ToLower(req.Username))] *)
Definition uid_of (req : types.ReplyRequest) : string :=
  GoStrings.Sprintf_s_dash_s (types.Listener req) (ToLower (types.Username req)).

(** [input := strings.Trim(req.Message, " ")] *)
Definition input_of (req : types.ReplyRequest) : string :=
  GoStrings.Trim (types.Message req) " ".

(** [func (self *Scarecrow) OnMessage(req *types.ReplyRequest, res chan ...)].
    The deferred [Shutdown] runs when the function returns, after the send
    on [res]. *)
Definition OnMessage (self : Scarecrow) (req : types.ReplyRequest) (res : chan)
    : Scarecrow * list event :=
  let uid := uid_of req in
  let input := input_of req in
  let '(self, reply, deferred, tr1) :=
    if IsAdmin self uid then OnMessage_command self input
    else (self, "", false, []) in
  let '(self, reply, tr2) :=
    if String.eqb reply "" then
      let '(text, brain) :=
        GetReply (Brain self) (types.BotUsername req) uid (types.Message req)
                 (types.GroupChat req) in
      (set_Brain self brain, text,
       [EvGetReply (types.BotUsername req) uid (types.Message req) (types.GroupChat req)])
    else
      (self, reply, [EvLogTransaction uid input (types.BotUsername req) reply]) in
  let tr3 := [EvSend res (types.mkCommunicationChannel
                            (types.DReplyAnswer
                               (types.mkReplyAnswer (types.Username req) reply)))] in
  let tr4 := if deferred then Shutdown self else [] in
  (self, tr1 ++ tr2 ++ tr3 ++ tr4).

(** [func (self *Scarecrow) OnStopped(ev *types.Stopped)]. *)
Definition OnStopped (self : Scarecrow) (ev : types.Stopped) : result :=
  let self := set_Listeners self (delete (types.ListenerId ev) (Listeners self)) in
  if Z.of_nat (size (Listeners self)) =? 0 then mkResult self (Some 0)
  else mkResult self None.

(** One turn of the loop of [ManageListener]: the [switch] on the dynamic
    type of the envelope received on [request]. *)
Definition ManageListener_step (self : Scarecrow) (req : types.CommunicationChannel)
    (answer : chan) : result * list event :=
  match types.Data_ req with
  | types.DReplyRequest ev =>
      let '(self, tr) := OnMessage self ev answer in (mkResult self None, tr)
  | types.DStopped ev => (OnStopped self ev, [])
  | _ => (mkResult self None, [])
  end.

End Scarecrow.

(* ===================================================================== *)
(** ** Concrete collaborators, used to run the functions                  *)
(* ===================================================================== *)

(** [strings.ToLower] on ASCII text. *)
Definition lower_byte (c : ascii) : ascii :=
  let n := N_of_ascii c in
  if ((65 <=? n) && (n <=? 90))%N then ascii_of_N (n + 32) else c.

Fixpoint lower_ascii (s : string) : string :=
  match s with
  | EmptyString => EmptyString
  | String c rest => String (lower_byte c) (lower_ascii rest)
  end.

(** The listener types registered by the three packages that [main]
    imports; the listener receives [Stop] on the channel it was given for
    answers. *)
Definition create_builtin (kind : string) (cfg : types.ListenerConfig)
    (request answer : chan) : option listeners.Listener :=
  if String.eqb kind "Console" || String.eqb kind "Slack" || String.eqb kind "XMPP"
  then Some (listeners.mkListener answer) else None.

(** A reply engine that echoes the message. *)
Definition echo_world : Collaborators := {|
  RiveScript := unit;
  InitBrain := fun b => b;
  GetReply := fun b _ _ message _ => ("You said: " +:+ message, b);
  ToLower := lower_ascii;
  Create := create_builtin;
  range_map := map_to_list;
  range_map_perm := fun m => Permutation_refl (map_to_list m)
|}.

(** A reply engine whose reply text is empty. *)
Definition silent_world : Collaborators := {|
  RiveScript := unit;
  InitBrain := fun b => b;
  GetReply := fun b _ _ _ _ => ("", b);
  ToLower := lower_ascii;
  Create := create_builtin;
  range_map := map_to_list;
  range_map_perm := fun m => Permutation_refl (map_to_list m)
|}.

(** Sample data: two active listeners, a console user [Bob] (routing
    identity [console-bob]), a chat user [Eve], and a configuration in which
    the id [A] occurs twice among the enabled registrations. *)
Definition two_listeners : gmap string listeners.Listener :=
  <["A" := listeners.mkListener 1%nat]> {["B" := listeners.mkListener 3%nat]}.

Definition bob_says (message : string) : types.ReplyRequest :=
  types.mkReplyRequest "console" "Bob" "Scarecrow" message false.

Definition eve_says (message : string) : types.ReplyRequest :=
  types.mkReplyRequest "slack" "Eve" "Scarecrow" message true.

Definition duplicate_config : list types.ListenerConfig :=
  [types.mkListenerConfig "A" "Console" true;
   types.mkListenerConfig "B" "Slack" true;
   types.mkListenerConfig "A" "XMPP" true;
   types.mkListenerConfig "C" "Console" true].

(** The envelope that carries a reply. *)
Definition answer_envelope (username reply : string) : types.CommunicationChannel :=
  types.mkCommunicationChannel (types.DReplyAnswer (types.mkReplyAnswer username reply)).

(** The envelope that asks a listener to stop. *)
Definition stop_envelope : types.CommunicationChannel :=
  types.mkCommunicationChannel types.DStop.

(** The reply texts sent on channel [res], in order. *)
Fixpoint replies_on (res : chan) (tr : list event) : list string :=
  match tr with
  | [] => []
  | EvSend c (types.mkCommunicationChannel (types.DReplyAnswer a)) :: rest =>
      if Nat.eqb c res then types.AnswerMessage a :: replies_on res rest
      else replies_on res rest
  | _ :: rest => replies_on res rest
  end.

(** The ids of the listeners whose [Start()] was invoked, in order. *)
Fixpoint started_ids (tr : list event) : list string :=
  match tr with
  | [] => []
  | EvStart id _ :: rest => id :: started_ids rest
  | _ :: rest => started_ids rest
  end.

(** The ids of the enabled registrations, in registration order. *)
Definition enabled_ids (cfgs : list types.ListenerConfig) : list string :=
  map types.Id (List.filter types.Enabled cfgs).

(** Every enabled registration of [cfgs] has a registered listener type:
    [listeners.Create] returns no error for it, whatever the channels. *)
Definition constructible `{C : Collaborators} (cfgs : list types.ListenerConfig) : Prop :=
  forall cfg, cfg ∈ cfgs -> types.Enabled cfg = true ->
    forall request answer, is_Some (Create (types.Type_ cfg) cfg request answer).

(** The trimming the specification describes: leading and trailing
    whitespace (space, tab, newline, carriage return) removed. *)
Definition trim_whitespace_spec (s : string) : string :=
  GoStrings.Trim s (String " " (String "009" (String "010" (String "013" "")))).

(** A dispatcher state with the given admins, registrations and active
    listeners. *)
Definition scarecrow_with `{C : Collaborators} (brain : RiveScript) (ready : bool)
    (admins : list string) (bots : list types.ListenerConfig)
    (active : gmap string listeners.Listener) : Scarecrow :=
  mkScarecrow false (mkDB ready) (types.mkAdminsConfig admins) (types.mkBotsConfig bots)
              brain active 0%nat.

(** The branches of the command part of [OnMessage], as a relation between
    the input and what the branch leaves: the state, [reply], whether the
    shutdown was deferred, and the events. *)
Inductive command_branch `{C : Collaborators} (self : Scarecrow) (input : string)
  : Scarecrow -> string -> bool -> list event -> Prop :=
| branch_reload :
    GoStrings.HasPrefix input "!reload" = true ->
    command_branch self input (set_Brain self (InitBrain (Brain self)))
                   "Brain reloaded!" false [EvInitBrain]
| branch_op (name : string) :
    input = "!op " +:+ name ->
    GoRegexp.class_plus name_class name = true ->
    command_branch self input
      (set_AdminsConfig self
         (types.mkAdminsConfig (types.Admins (AdminsConfig self) ++ [name])))
      (name +:+ " added to the admins list.") false
      [EvSaveAdminsConfig
         (types.mkAdminsConfig (types.Admins (AdminsConfig self) ++ [name]))]
| branch_op_syntax :
    GoStrings.HasPrefix input "!op" = true ->
    GoRegexp.FindStringSubmatch RE_OP input = [] ->
    command_branch self input self "Syntax error." false []
| branch_deop (name : string) :
    input = "!deop " +:+ name ->
    GoRegexp.class_plus name_class name = true ->
    command_branch self input
      (set_AdminsConfig self
         (types.mkAdminsConfig (deop_loop (types.Admins (AdminsConfig self)) name)))
      (name +:+ " removed from the admins list.") false
      [EvSaveAdminsConfig
         (types.mkAdminsConfig (deop_loop (types.Admins (AdminsConfig self)) name))]
| branch_deop_syntax :
    GoStrings.HasPrefix input "!deop" = true ->
    GoRegexp.FindStringSubmatch RE_DEOP input = [] ->
    command_branch self input self "Syntax error." false []
| branch_halt :
    GoStrings.HasPrefix input "!halt" = true ->
    command_branch self input self "Shutting down..." true []
| branch_none :
    GoStrings.HasPrefix input "!reload" = false ->
    GoStrings.HasPrefix input "!op" = false ->
    GoStrings.HasPrefix input "!deop" = false ->
    GoStrings.HasPrefix input "!halt" = false ->
    command_branch self input self "" false [].

(** The dispatcher with [console-bob] as its only admin and both sample
    listeners active, served by the echoing engine. *)
Definition bob_state : @Scarecrow echo_world :=
  @scarecrow_with echo_world tt true ["console-bob"] [] two_listeners.

(** The same dispatcher, served by the engine whose text is empty. *)
Definition silent_state : @Scarecrow silent_world :=
  @scarecrow_with silent_world tt true ["console-bob"] [] two_listeners.

(** A dispatcher about to activate the given registrations. *)
Definition startup_state (ready : bool) (cfgs : list types.ListenerConfig)
    : @Scarecrow echo_world :=
  @scarecrow_with echo_world tt ready [] cfgs ∅.

(* ===================================================================== *)
(** ** The routing loop, and views of an event list                       *)
(* ===================================================================== *)

(** [func (self *Scarecrow) ManageListener(request, answer chan ...)]: the
    [for { select { case req := <-request: ... } }] loop of one routing
    task, run on the envelopes it receives on [request], in order.  The
    loop has no exit of its own; it ends with the process, when a handler
    calls [os.Exit]. *)
Fixpoint ManageListener `{C : Collaborators} (self : Scarecrow)
    (request : list types.CommunicationChannel) (answer : chan)
    : result * list event :=
  match request with
  | [] => (mkResult self None, [])
  | req :: rest =>
      let '(r, tr) := ManageListener_step self req answer in
      match exited r with
      | Some _ => (r, tr)
      | None =>
          let '(r', tr') := ManageListener (state r) rest answer in
          (r', tr ++ tr')
      end
  end.

(** Calls of [OnStopped], one after the other, in the order in which they
    take [ListenersLock] (the lock is held for the whole body, so calls made
    by different routing tasks do not overlap); nothing runs after an
    [os.Exit]. *)
Fixpoint OnStopped_in_turn `{C : Collaborators} (self : Scarecrow)
    (evs : list types.Stopped) : result :=
  match evs with
  | [] => mkResult self None
  | ev :: rest =>
      let r := OnStopped self ev in
      match exited r with
      | Some _ => r
      | None => OnStopped_in_turn (state r) rest
      end
  end.

(** The channel sends of an event list, in order. *)
Fixpoint sends (tr : list event) : list (chan * types.CommunicationChannel) :=
  match tr with
  | [] => []
  | EvSend c msg :: rest => (c, msg) :: sends rest
  | _ :: rest => sends rest
  end.

(** The configurations handed to [SaveAdminsConfig], in order. *)
Fixpoint saved_configs (tr : list event) : list types.AdminsConfig :=
  match tr with
  | [] => []
  | EvSaveAdminsConfig cfg :: rest => cfg :: saved_configs rest
  | _ :: rest => saved_configs rest
  end.

(** The calls of [GetReply], in order. *)
Fixpoint engine_calls (tr : list event) : list (string * string * string * bool) :=
  match tr with
  | [] => []
  | EvGetReply bot uid message group :: rest =>
      (bot, uid, message, group) :: engine_calls rest
  | _ :: rest => engine_calls rest
  end.

(** The calls of [LogTransaction], in order. *)
Fixpoint transactions (tr : list event) : list (string * string * string * string) :=
  match tr with
  | [] => []
  | EvLogTransaction uid input bot reply :: rest =>
      (uid, input, bot, reply) :: transactions rest
  | _ :: rest => transactions rest
  end.

(** The channels given to the routing tasks that were spawned: request,
    then answer, for each task in order. *)
Fixpoint spawned_channels (tr : list event) : list chan :=
  match tr with
  | [] => []
  | EvGoManageListener request answer :: rest =>
      request :: answer :: spawned_channels rest
  | _ :: rest => spawned_channels rest
  end.

(** The listeners whose [Start()] was invoked, with the id of their
    registration, in order. *)
Fixpoint started (tr : list event) : list (string * listeners.Listener) :=
  match tr with
  | [] => []
  | EvStart id l :: rest => (id, l) :: started rest
  | _ :: rest => started rest
  end.

(** The users the reply answers sent on [res] are addressed to, in order. *)
Fixpoint answered_users (res : chan) (tr : list event) : list string :=
  match tr with
  | [] => []
  | EvSend c (types.mkCommunicationChannel (types.DReplyAnswer a)) :: rest =>
      if Nat.eqb c res then types.AnswerUsername a :: answered_users res rest
      else answered_users res rest
  | _ :: rest => answered_users res rest
  end.

(** The reply requests among the envelopes of an inbox, in order. *)
Fixpoint reply_requests (inbox : list types.CommunicationChannel)
    : list types.ReplyRequest :=
  match inbox with
  | [] => []
  | types.mkCommunicationChannel (types.DReplyRequest req) :: rest =>
      req :: reply_requests rest
  | _ :: rest => reply_requests rest
  end.

(** The sends of [Stop{}], and an event list without them: what is left
    does not depend on the order in which [Shutdown] ranges over the map. *)
Definition is_stop_send (e : event) : bool :=
  match e with
  | EvSend _ (types.mkCommunicationChannel types.DStop) => true
  | _ => false
  end.

Definition without_stops (tr : list event) : list event :=
  List.filter (fun e => negb (is_stop_send e)) tr.

(** An envelope the [switch] of [ManageListener] has a case for. *)
Definition handled_variant (env : types.CommunicationChannel) : bool :=
  match types.Data_ env with
  | types.DReplyRequest _ | types.DStopped _ => true
  | _ => false
  end.

(** The request [req] with [n] spaces before and [m] spaces after its
    message. *)
Definition padded (n m : nat) (req : types.ReplyRequest) : types.ReplyRequest :=
  types.mkReplyRequest (types.Listener req) (types.Username req)
    (types.BotUsername req)
    (GoStrings.spaces n +:+ types.Message req +:+ GoStrings.spaces m)
    (types.GroupChat req).

(** More sample data: a configuration with distinct enabled ids and a
    disabled registration of an unregistered type, and the inbox of a
    routing task whose listener relays messages of [Eve]. *)
Definition distinct_config : list types.ListenerConfig :=
  [types.mkListenerConfig "A" "Console" true;
   types.mkListenerConfig "D" "IRC" false;
   types.mkListenerConfig "B" "Slack" true].

(** A dispatcher with both sample listeners active, whose channels 1 and 3
    were made earlier, about to activate two more registrations. *)
Definition restart_state : @Scarecrow echo_world :=
  @mkScarecrow echo_world false (mkDB true) (types.mkAdminsConfig [])
    (types.mkBotsConfig [types.mkListenerConfig "C" "Console" true;
                         types.mkListenerConfig "D" "Slack" true])
    tt two_listeners 4%nat.

Definition eve_inbox : list types.CommunicationChannel :=
  [types.mkCommunicationChannel (types.DReplyRequest (eve_says "!op slack-eve"));
   types.mkCommunicationChannel types.DStop;
   types.mkCommunicationChannel (types.DReplyRequest (eve_says "!halt"))].

(* ===================================================================== *)
(** ** Facts about the string functions                                   *)
(* ===================================================================== *)

Section StringFacts.

Import GoStrings GoRegexp.

Lemma app_String (c : ascii) (s t : string) : String c s +:+ t = String c (s +:+ t).
Proof. reflexivity. Qed.

Lemma app_empty_l (s : string) : "" +:+ s = s.
Proof. reflexivity. Qed.

Lemma length_app_string (s t : string) :
  String.length (s +:+ t) = (String.length s + String.length t)%nat.
Proof.
  induction s as [|c s IH]; [reflexivity|].
  rewrite app_String. simpl. now rewrite IH.
Qed.

(** [HasPrefix] is the prefix relation. *)
Lemma HasPrefix_true_iff (s p : string) :
  HasPrefix s p = true <-> exists r, s = p +:+ r.
Proof.
  revert s. induction p as [|a p IH]; intros s; simpl.
  - split; [intros _; now exists s | reflexivity].
  - destruct s as [|c s].
    + split; [discriminate | intros [r Hr]; discriminate].
    + destruct (Ascii.eqb_spec c a) as [->|Hne].
      * rewrite IH. split; intros [r Hr]; exists r.
        -- rewrite app_String. now rewrite Hr.
        -- rewrite app_String in Hr. now injection Hr.
      * split; [discriminate|]. intros [r Hr]. rewrite app_String in Hr.
        injection Hr as Hc _. contradiction.
Qed.

(** [strings.Index(s, p) == 0] is the test [strings.HasPrefix(s, p)]. *)
Lemma Index_eqb_0 (s p : string) : (Index s p =? 0) = HasPrefix s p.
Proof.
  destruct s as [|c s]; simpl; destruct (HasPrefix _ p) eqn:E; try reflexivity.
  destruct (Index s p <? 0) eqn:Hi; [reflexivity|].
  apply Z.ltb_ge in Hi. apply Z.eqb_neq. lia.
Qed.

Lemma cut_literal_Some_iff (lit s r : string) :
  cut_literal lit s = Some r <-> s = lit +:+ r.
Proof.
  revert s. induction lit as [|a lit IH]; intros s; simpl.
  - rewrite app_empty_l. split; [now intros [= ->] | now intros ->].
  - destruct s as [|c s]; [split; discriminate|].
    rewrite app_String.
    destruct (Ascii.eqb_spec c a) as [->|Hne].
    + rewrite IH. split; [now intros -> | now intros [= ->]].
    + split; [discriminate|]. intros [= Hc _]. contradiction.
Qed.

(** What [FindStringSubmatch] returns for a regular expression of the
    shape [^lit(class+?)$]. *)
Lemma FindStringSubmatch_match (re : Regexp) (name : string) :
  class_plus (re_class re) name = true ->
  FindStringSubmatch re (re_literal re +:+ name) = [re_literal re +:+ name; name].
Proof.
  intros Hc. unfold FindStringSubmatch.
  assert (H : cut_literal (re_literal re) (re_literal re +:+ name) = Some name)
    by now apply cut_literal_Some_iff.
  now rewrite H, Hc.
Qed.

Lemma FindStringSubmatch_cases (re : Regexp) (s : string) :
  (FindStringSubmatch re s = [] /\
   forall name, s = re_literal re +:+ name -> class_plus (re_class re) name = false)
  \/ (exists name, s = re_literal re +:+ name /\ class_plus (re_class re) name = true
                   /\ FindStringSubmatch re s = [s; name]).
Proof.
  unfold FindStringSubmatch.
  destruct (cut_literal (re_literal re) s) as [rest|] eqn:E.
  - apply cut_literal_Some_iff in E.
    destruct (class_plus (re_class re) rest) eqn:Hc.
    + right. exists rest. auto.
    + left. split; [reflexivity|]. intros name Hn. rewrite E in Hn.
      apply (inj (String.app (re_literal re))) in Hn. now subst.
  - left. split; [reflexivity|]. intros name Hn.
    apply cut_literal_Some_iff in Hn. congruence.
Qed.

End StringFacts.

(* ===================================================================== *)
(** ** Properties of the dispatcher                                       *)
(* ===================================================================== *)

Section Properties.

Context `{C : Collaborators}.

Import GoStrings GoRegexp.

Implicit Types (self : Scarecrow) (req : types.ReplyRequest) (res : chan).

(** *** Admin check *)

Lemma IsAdmin_loop_In (admins : list string) (u : string) :
  IsAdmin_loop admins u = true <-> In u admins.
Proof.
  induction admins as [|a admins IH]; simpl; [split; [discriminate | tauto]|].
  destruct (String.eqb_spec a u) as [->|Hne].
  - split; auto.
  - rewrite IH. split; [tauto|]. intros [E|H]; [contradiction | exact H].
Qed.

Lemma IsAdmin_true_iff self (u : string) :
  IsAdmin self u = true <-> In u (types.Admins (AdminsConfig self)).
Proof. apply IsAdmin_loop_In. Qed.

Lemma IsAdmin_false_iff self (u : string) :
  IsAdmin self u = false <-> ~ In u (types.Admins (AdminsConfig self)).
Proof.
  rewrite <- IsAdmin_true_iff. destruct (IsAdmin self u); split; congruence.
Qed.

(** *** Listener removal *)

Lemma OnStopped_state self (ev : types.Stopped) :
  state (OnStopped self ev)
  = set_Listeners self (delete (types.ListenerId ev) (Listeners self)).
Proof. unfold OnStopped. simpl. now destruct (_ =? 0). Qed.

Lemma OnStopped_exited self (ev : types.Stopped) :
  exited (OnStopped self ev)
  = if decide (delete (types.ListenerId ev) (Listeners self) = ∅) then Some 0 else None.
Proof.
  unfold OnStopped. simpl.
  destruct (Z.eqb_spec (Z.of_nat (size (delete (types.ListenerId ev) (Listeners self)))) 0)
    as [Hz|Hz]; case_decide as He; simpl; try reflexivity.
  - exfalso. apply He. apply map_size_empty_iff. lia.
  - exfalso. apply Hz. rewrite He. now rewrite map_size_empty.
Qed.

(** C2. Handling [Stopped{A}] deletes the entry of [A] from the mapping of
    active listeners and leaves every other entry, and every other field of
    the dispatcher, as it was; the process exits (status 0) exactly when
    the mapping is empty afterwards.  With [A] and [B] active only [A] goes
    and the process goes on; with [A] alone the process exits. *)
Theorem stopped_removes_entry_and_exits_iff_empty self (A : string) (answer : chan) :
  let r := ManageListener_step self
             (types.mkCommunicationChannel (types.DStopped (types.mkStopped A))) answer in
  let after := Listeners (state (fst r)) in
  snd r = []
  /\ after !! A = None
  /\ (forall id, id <> A -> after !! id = Listeners self !! id)
  /\ state (fst r) = set_Listeners self after
  /\ (exited (fst r) = Some 0 <-> after = ∅)
  /\ (exited (fst r) = None <-> after <> ∅)
  /\ (forall B la lb, A <> B -> Listeners self = <[A := la]> {[B := lb]} ->
        after = {[B := lb]} /\ exited (fst r) = None)
  /\ (forall la, Listeners self = {[A := la]} ->
        after = ∅ /\ exited (fst r) = Some 0).
Proof.
  cbn zeta. unfold ManageListener_step. cbn [types.Data_ fst snd].
  rewrite OnStopped_state, OnStopped_exited. cbn [types.ListenerId Listeners set_Listeners].
  split; [reflexivity|].
  split; [apply lookup_delete_eq|].
  split; [intros id Hid; now apply lookup_delete_ne|].
  split; [reflexivity|].
  split; [case_decide; split; congruence|].
  split; [case_decide; split; congruence|].
  split.
  - intros B la lb Hne ->.
    rewrite delete_insert_eq, delete_singleton_ne by congruence.
    split; [reflexivity|].
    case_decide as He; [|reflexivity].
    exfalso. apply (f_equal (fun m => m !! B)) in He.
    rewrite lookup_singleton_eq, lookup_empty in He. discriminate.
  - intros la ->. rewrite delete_singleton_eq.
    split; [reflexivity|]. now case_decide.
Qed.

(** *** Message handling *)

(** Non-admins never reach the command part. *)
Lemma OnMessage_not_admin self req res :
  IsAdmin self (uid_of req) = false ->
  OnMessage self req res
  = (set_Brain self
       (snd (GetReply (Brain self) (types.BotUsername req) (uid_of req)
                      (types.Message req) (types.GroupChat req))),
     [EvGetReply (types.BotUsername req) (uid_of req) (types.Message req)
                 (types.GroupChat req);
      EvSend res (answer_envelope (types.Username req)
                    (fst (GetReply (Brain self) (types.BotUsername req) (uid_of req)
                                   (types.Message req) (types.GroupChat req))))]).
Proof.
  intros Hna. unfold OnMessage. rewrite Hna. cbn [String.eqb].
  now destruct (GetReply _ _ _ _ _) as [text brain].
Qed.

(** C7. A sender whose routing identity is not in the admin list gets the
    reply engine's text, whatever the message: the engine is called with
    the bot's username, the routing identity, the raw message (not the
    trimmed one) and the group-chat flag, its text is sent back as the
    reply, and nothing else happens (no reload, no change of the admin
    list, no transaction log, no shutdown). *)
Theorem non_admin_message_forwarded_verbatim self req res :
  ~ In (uid_of req) (types.Admins (AdminsConfig self)) ->
  let engine := GetReply (Brain self) (types.BotUsername req) (uid_of req)
                         (types.Message req) (types.GroupChat req) in
  snd (OnMessage self req res)
    = [EvGetReply (types.BotUsername req) (uid_of req) (types.Message req)
                  (types.GroupChat req);
       EvSend res (answer_envelope (types.Username req) (fst engine))]
  /\ fst (OnMessage self req res) = set_Brain self (snd engine).
Proof.
  intros Hna. apply IsAdmin_false_iff in Hna.
  rewrite (OnMessage_not_admin _ _ _ Hna). now split.
Qed.

(** The four command prefixes exclude one another, except that nothing
    follows from [!op] about [!deop] and [!halt] (they are tested later). *)
Ltac prefix_clash :=
  let r := fresh "r" in
  intros [r ->]%HasPrefix_true_iff; repeat split; reflexivity.

Lemma prefix_op_not_reload (s : string) :
  HasPrefix s "!op" = true -> HasPrefix s "!reload" = false.
Proof. prefix_clash. Qed.

Lemma prefix_deop_not_earlier (s : string) :
  HasPrefix s "!deop" = true ->
  HasPrefix s "!reload" = false /\ HasPrefix s "!op" = false.
Proof. prefix_clash. Qed.

Lemma prefix_halt_not_earlier (s : string) :
  HasPrefix s "!halt" = true ->
  HasPrefix s "!reload" = false /\ HasPrefix s "!op" = false
  /\ HasPrefix s "!deop" = false.
Proof. prefix_clash. Qed.

Lemma app_nonempty_r (s t : string) : t <> "" -> s +:+ t <> "".
Proof.
  intros Ht E. apply (f_equal String.length) in E.
  rewrite length_app_string in E. destruct t; [congruence | simpl in E; lia].
Qed.

Lemma eqb_empty_false (s : string) : s <> "" -> String.eqb s "" = false.
Proof. intros H. now apply String.eqb_neq. Qed.

(** The command part, branch by branch. *)
Lemma command_reload self (input : string) :
  HasPrefix input "!reload" = true ->
  OnMessage_command self input
  = (set_Brain self (InitBrain (Brain self)), "Brain reloaded!", false, [EvInitBrain]).
Proof. intros H. unfold OnMessage_command. now rewrite Index_eqb_0, H. Qed.

Lemma command_op_match self (name : string) :
  class_plus name_class name = true ->
  OnMessage_command self ("!op " +:+ name)
  = (set_AdminsConfig self
       (types.mkAdminsConfig (types.Admins (AdminsConfig self) ++ [name])),
     name +:+ " added to the admins list.", false,
     [EvSaveAdminsConfig
        (types.mkAdminsConfig (types.Admins (AdminsConfig self) ++ [name]))]).
Proof.
  intros Hc. unfold OnMessage_command. rewrite !Index_eqb_0.
  change (HasPrefix ("!op " +:+ name) "!reload") with false.
  change (HasPrefix ("!op " +:+ name) "!op") with true. cbv iota.
  pose proof (FindStringSubmatch_match RE_OP name Hc) as Hm.
  change (re_literal RE_OP) with "!op " in Hm. rewrite Hm. reflexivity.
Qed.

Lemma command_op_syntax self (input : string) :
  HasPrefix input "!op" = true ->
  FindStringSubmatch RE_OP input = [] ->
  OnMessage_command self input = (self, "Syntax error.", false, []).
Proof.
  intros Hp Hm. unfold OnMessage_command. rewrite !Index_eqb_0.
  now rewrite (prefix_op_not_reload _ Hp), Hp, Hm.
Qed.

Lemma command_deop_match self (name : string) :
  class_plus name_class name = true ->
  OnMessage_command self ("!deop " +:+ name)
  = (set_AdminsConfig self
       (types.mkAdminsConfig (deop_loop (types.Admins (AdminsConfig self)) name)),
     name +:+ " removed from the admins list.", false,
     [EvSaveAdminsConfig
        (types.mkAdminsConfig (deop_loop (types.Admins (AdminsConfig self)) name))]).
Proof.
  intros Hc. unfold OnMessage_command. rewrite !Index_eqb_0.
  change (HasPrefix ("!deop " +:+ name) "!reload") with false.
  change (HasPrefix ("!deop " +:+ name) "!op") with false.
  change (HasPrefix ("!deop " +:+ name) "!deop") with true. cbv iota.
  pose proof (FindStringSubmatch_match RE_DEOP name Hc) as Hm.
  change (re_literal RE_DEOP) with "!deop " in Hm. rewrite Hm. reflexivity.
Qed.

Lemma command_deop_syntax self (input : string) :
  HasPrefix input "!deop" = true ->
  FindStringSubmatch RE_DEOP input = [] ->
  OnMessage_command self input = (self, "Syntax error.", false, []).
Proof.
  intros Hp Hm. unfold OnMessage_command. rewrite !Index_eqb_0.
  destruct (prefix_deop_not_earlier _ Hp) as [-> ->]. now rewrite Hp, Hm.
Qed.

Lemma command_halt self (input : string) :
  HasPrefix input "!halt" = true ->
  OnMessage_command self input = (self, "Shutting down...", true, []).
Proof.
  intros Hp. unfold OnMessage_command. rewrite !Index_eqb_0.
  destruct (prefix_halt_not_earlier _ Hp) as (-> & -> & ->). now rewrite Hp.
Qed.

Lemma command_none self (input : string) :
  HasPrefix input "!reload" = false -> HasPrefix input "!op" = false ->
  HasPrefix input "!deop" = false -> HasPrefix input "!halt" = false ->
  OnMessage_command self input = (self, "", false, []).
Proof.
  intros H1 H2 H3 H4. unfold OnMessage_command. rewrite !Index_eqb_0.
  now rewrite H1, H2, H3, H4.
Qed.

(** An admin whose input gave a command reply: the command's events, the
    transaction log entry, the answer, and then the deferred shutdown. *)
Lemma OnMessage_admin_command self req res self' (reply : string) (deferred : bool)
    (tr1 : list event) :
  IsAdmin self (uid_of req) = true ->
  OnMessage_command self (input_of req) = (self', reply, deferred, tr1) ->
  reply <> "" ->
  OnMessage self req res
  = (self',
     tr1 ++ [EvLogTransaction (uid_of req) (input_of req) (types.BotUsername req) reply]
         ++ [EvSend res (answer_envelope (types.Username req) reply)]
         ++ (if deferred then Shutdown self' else [])).
Proof.
  intros Ha Hc Hr. unfold OnMessage. rewrite Ha, Hc.
  now rewrite (eqb_empty_false _ Hr).
Qed.

(** An admin whose input is no command is served by the reply engine. *)
Lemma OnMessage_admin_no_command self req res :
  OnMessage_command self (input_of req) = (self, "", false, []) ->
  OnMessage self req res
  = (set_Brain self
       (snd (GetReply (Brain self) (types.BotUsername req) (uid_of req)
                      (types.Message req) (types.GroupChat req))),
     [EvGetReply (types.BotUsername req) (uid_of req) (types.Message req)
                 (types.GroupChat req);
      EvSend res (answer_envelope (types.Username req)
                    (fst (GetReply (Brain self) (types.BotUsername req) (uid_of req)
                                   (types.Message req) (types.GroupChat req))))]).
Proof.
  intros Hc. destruct (IsAdmin self (uid_of req)) eqn:Ha.
  - unfold OnMessage. rewrite Ha, Hc. cbn [String.eqb].
    now destruct (GetReply _ _ _ _ _) as [text brain].
  - now apply OnMessage_not_admin.
Qed.

(** C3. When the sender is an admin and the trimmed input starts with
    [!halt], the handler logs the transaction, sends the answer
    ["Shutting down..."] on the listener's answer channel, and only then
    runs the shutdown broadcast: one [Stop{}] on the input channel of every
    active listener (in the order the map is ranged over).  The dispatcher
    state is unchanged. *)
Theorem halt_reply_sent_before_shutdown self req res :
  IsAdmin self (uid_of req) = true ->
  Index (input_of req) "!halt" = 0 ->
  exists stops,
    snd (OnMessage self req res)
    = [EvLogTransaction (uid_of req) (input_of req) (types.BotUsername req)
                        "Shutting down...";
       EvSend res (answer_envelope (types.Username req) "Shutting down...")]
      ++ stops
    /\ stops = Shutdown self
    /\ stops ≡ₚ map (fun e => EvSend (listeners.InputChannel (snd e)) stop_envelope)
                    (map_to_list (Listeners self))
    /\ fst (OnMessage self req res) = self.
Proof.
  intros Ha Hi. apply Z.eqb_eq in Hi. rewrite Index_eqb_0 in Hi.
  rewrite (OnMessage_admin_command self req res _ _ _ _ Ha (command_halt self _ Hi))
    by discriminate.
  exists (Shutdown self). repeat split.
  unfold Shutdown. rewrite (range_map_perm (Listeners self)).
  erewrite map_ext; [reflexivity|]. now intros [id bot].
Qed.

(** Every input takes exactly the branch the relation describes. *)
Lemma OnMessage_command_branch self (input : string) :
  exists self' reply deferred tr1,
    OnMessage_command self input = (self', reply, deferred, tr1)
    /\ command_branch self input self' reply deferred tr1.
Proof.
  destruct (HasPrefix input "!reload") eqn:H1.
  { eexists _, _, _, _. split; [now apply command_reload | now constructor]. }
  destruct (HasPrefix input "!op") eqn:H2.
  { destruct (FindStringSubmatch_cases RE_OP input) as [[Hm _]|(name & -> & Hc & _)].
    - eexists _, _, _, _. split; [now apply command_op_syntax | now constructor].
    - eexists _, _, _, _. split; [now apply command_op_match | now econstructor]. }
  destruct (HasPrefix input "!deop") eqn:H3.
  { destruct (FindStringSubmatch_cases RE_DEOP input) as [[Hm _]|(name & -> & Hc & _)].
    - eexists _, _, _, _. split; [now apply command_deop_syntax | now constructor].
    - eexists _, _, _, _. split; [now apply command_deop_match | now econstructor]. }
  destruct (HasPrefix input "!halt") eqn:H4.
  { eexists _, _, _, _. split; [now apply command_halt | now constructor]. }
  eexists _, _, _, _. split; [now apply command_none | now constructor].
Qed.

(** A command reply is empty only when no command matched. *)
Lemma command_branch_reply self (input : string) self' (reply : string)
    (deferred : bool) (tr1 : list event) :
  command_branch self input self' reply deferred tr1 ->
  reply <> "" \/ (reply = "" /\ self' = self /\ deferred = false /\ tr1 = []).
Proof.
  intros [ | name _ _ | | name _ _ | | | ]; try (left; discriminate); [| |right; auto];
    left; apply app_nonempty_r; discriminate.
Qed.

(** *** Granting and revoking *)

Lemma deop_loop_filter (admins : list string) (name : string) :
  forall x, In x (deop_loop admins name) <-> In x admins /\ x <> name.
Proof.
  induction admins as [|a admins IH]; intros x; simpl; [tauto|].
  destruct (String.eqb_spec a name) as [->|Hne]; simpl; rewrite IH.
  - split; [tauto|]. intros [[E|H] Hx]; [congruence | tauto].
  - split; [intros [E|[H Hx]]; [subst; tauto | tauto] | tauto].
Qed.

Lemma deop_loop_fresh (admins : list string) (name : string) :
  ~ In name admins -> deop_loop admins name = admins.
Proof.
  induction admins as [|a admins IH]; simpl; [reflexivity|]. intros Hn.
  destruct (String.eqb_spec a name) as [->|Hne]; simpl; [tauto|].
  rewrite IH; tauto.
Qed.

Lemma deop_loop_app (l1 l2 : list string) (name : string) :
  deop_loop (l1 ++ l2) name = deop_loop l1 name ++ deop_loop l2 name.
Proof.
  induction l1 as [|a l1 IH]; simpl; [reflexivity|].
  destruct (negb (String.eqb a name)); simpl; now rewrite IH.
Qed.

Lemma deop_after_op_fresh (admins : list string) (name : string) :
  ~ In name admins -> deop_loop (admins ++ [name]) name = admins.
Proof.
  intros Hn. rewrite deop_loop_app, (deop_loop_fresh _ _ Hn). simpl.
  rewrite String.eqb_refl. simpl. apply app_nil_r.
Qed.

(** Granting a fresh name and revoking it again restores the dispatcher,
    for every name the pattern accepts. *)
Lemma op_then_deop_restores self req1 req2 res1 res2 (name : string) :
  class_plus name_class name = true ->
  ~ In name (types.Admins (AdminsConfig self)) ->
  IsAdmin self (uid_of req1) = true ->
  input_of req1 = "!op " +:+ name ->
  IsAdmin (fst (OnMessage self req1 res1)) (uid_of req2) = true ->
  input_of req2 = "!deop " +:+ name ->
  fst (OnMessage (fst (OnMessage self req1 res1)) req2 res2) = self.
Proof.
  intros Hc Hfresh Ha1 Hi1 Ha2 Hi2.
  assert (Hne1 : name +:+ " added to the admins list." <> "")
    by (apply app_nonempty_r; discriminate).
  assert (Hne2 : name +:+ " removed from the admins list." <> "")
    by (apply app_nonempty_r; discriminate).
  pose proof (command_op_match self name Hc) as Hop. rewrite <- Hi1 in Hop.
  rewrite (OnMessage_admin_command self req1 res1 _ _ _ _ Ha1 Hop Hne1) in Ha2 |- *.
  cbn [fst] in Ha2 |- *.
  pose proof (command_deop_match
                (set_AdminsConfig self
                   (types.mkAdminsConfig (types.Admins (AdminsConfig self) ++ [name])))
                name Hc) as Hdeop.
  rewrite <- Hi2 in Hdeop.
  rewrite (OnMessage_admin_command _ req2 res2 _ _ _ _ Ha2 Hdeop Hne2).
  cbn [fst AdminsConfig set_AdminsConfig types.Admins].
  rewrite (deop_after_op_fresh _ _ Hfresh).
  destruct self as [d db [admins] bots brain ls nc]. reflexivity.
Qed.

(** C5. For every admin list that does not contain [alice]: an admin's
    [!op alice] followed by an admin's [!deop alice] leaves the admin list
    (and the whole dispatcher state) as it was before the two commands. *)
Theorem op_alice_then_deop_alice_roundtrip self req1 req2 res1 res2 :
  ~ In "alice" (types.Admins (AdminsConfig self)) ->
  IsAdmin self (uid_of req1) = true ->
  input_of req1 = "!op alice" ->
  IsAdmin (fst (OnMessage self req1 res1)) (uid_of req2) = true ->
  input_of req2 = "!deop alice" ->
  let after := fst (OnMessage (fst (OnMessage self req1 res1)) req2 res2) in
  types.Admins (AdminsConfig after) = types.Admins (AdminsConfig self)
  /\ after = self.
Proof.
  intros Hfresh Ha1 Hi1 Ha2 Hi2. cbn zeta.
  rewrite (op_then_deop_restores self req1 req2 res1 res2 "alice"); auto.
Qed.

(** *** Malformed arguments *)

Lemma FindStringSubmatch_mismatch (re : Regexp) (arg : string) :
  class_plus (re_class re) arg = false ->
  FindStringSubmatch re (re_literal re +:+ arg) = [].
Proof.
  intros Hc.
  destruct (FindStringSubmatch_cases re (re_literal re +:+ arg))
    as [[Hm _]|(name & Hn & Hc' & _)]; [exact Hm|].
  apply (inj (String.app (re_literal re))) in Hn. congruence.
Qed.

(** C6. For an admin sender, [!op <arg>] or [!deop <arg>] whose argument is
    not one or more characters of [[A-Za-z0-9.@_-]] is answered with
    ["Syntax error."]; the dispatcher state, admin list included, is
    unchanged, and the only effects are the transaction log entry and the
    answer: [SaveAdminsConfig] is not called. *)
Theorem malformed_op_deop_is_syntax_error self req res (cmd arg : string) :
  IsAdmin self (uid_of req) = true ->
  cmd = "!op" \/ cmd = "!deop" ->
  input_of req = cmd +:+ " " +:+ arg ->
  class_plus name_class arg = false ->
  OnMessage self req res
  = (self,
     [EvLogTransaction (uid_of req) (input_of req) (types.BotUsername req) "Syntax error.";
      EvSend res (answer_envelope (types.Username req) "Syntax error.")]).
Proof.
  intros Ha Hcmd Hi Hc.
  assert (Hcommand : OnMessage_command self (input_of req)
                     = (self, "Syntax error.", false, [])).
  { rewrite Hi. destruct Hcmd as [-> | ->].
    - apply command_op_syntax; [reflexivity|].
      apply (FindStringSubmatch_mismatch RE_OP arg Hc).
    - apply command_deop_syntax; [reflexivity|].
      apply (FindStringSubmatch_mismatch RE_DEOP arg Hc). }
  rewrite (OnMessage_admin_command self req res _ _ _ _ Ha Hcommand) by discriminate.
  reflexivity.
Qed.

(** *** Routing identities and admin names *)

Lemma byteIn_app (s t : string) (c : ascii) :
  byteIn (s +:+ t) c = byteIn s c || byteIn t c.
Proof.
  induction s as [|a s IH]; [reflexivity|].
  rewrite app_String. simpl. now destruct (Ascii.eqb c a).
Qed.

(** Every routing identity the handler builds contains a hyphen. *)
Lemma uid_of_has_hyphen req : byteIn (uid_of req) "-" = true.
Proof.
  unfold uid_of, Sprintf_s_dash_s. rewrite !byteIn_app.
  change (byteIn "-" "-") with true. now rewrite orb_true_r.
Qed.

Lemma IsAdmin_loop_app (l1 l2 : list string) (u : string) :
  IsAdmin_loop (l1 ++ l2) u = IsAdmin_loop l1 u || IsAdmin_loop l2 u.
Proof.
  induction l1 as [|a l1 IH]; simpl; [reflexivity|].
  now destruct (String.eqb a u).
Qed.

(** C9. The admin check is exact string equality with some entry of the
    admin list.  Every routing identity built by the handler contains a
    hyphen.  So when an admin grants, with [!op], a name without a hyphen
    (such as [carol]), the name is appended to the admin list and the admin
    check of every routing identity gives what it gave before: the new
    entry makes nobody an admin. *)
Theorem op_name_without_hyphen_admits_nobody self req res (name : string) :
  byteIn name "-" = false ->
  class_plus name_class name = true ->
  IsAdmin self (uid_of req) = true ->
  input_of req = "!op " +:+ name ->
  let after := fst (OnMessage self req res) in
  (forall s (u : string), IsAdmin s u = true <-> In u (types.Admins (AdminsConfig s)))
  /\ (forall req', byteIn (uid_of req') "-" = true
                  /\ exists pre post, uid_of req' = pre +:+ "-" +:+ post)
  /\ types.Admins (AdminsConfig after) = types.Admins (AdminsConfig self) ++ [name]
  /\ (forall req', uid_of req' <> name)
  /\ (forall req', IsAdmin after (uid_of req') = IsAdmin self (uid_of req')).
Proof.
  intros Hh Hc Ha Hi. cbn zeta.
  assert (Hne : forall req', uid_of req' <> name).
  { intros req' E. pose proof (uid_of_has_hyphen req') as Hu. congruence. }
  pose proof (command_op_match self name Hc) as Hop. rewrite <- Hi in Hop.
  rewrite (OnMessage_admin_command self req res _ _ _ _ Ha Hop)
    by (apply app_nonempty_r; discriminate).
  cbn [fst]. repeat split.
  - now apply IsAdmin_true_iff.
  - now apply IsAdmin_true_iff.
  - apply uid_of_has_hyphen.
  - now exists (types.Listener req'), (ToLower (types.Username req')).
  - exact Hne.
  - intros req'. unfold IsAdmin. cbn [AdminsConfig set_AdminsConfig types.Admins].
    rewrite IsAdmin_loop_app. simpl.
    destruct (String.eqb_spec name (uid_of req')) as [E|_].
    + exfalso. now apply (Hne req').
    + apply orb_false_r.
Qed.

(** *** Frame: who changes the admin list *)

(** The state after [OnMessage] when the command part left the admin list
    alone. *)
Lemma OnMessage_frame self req res self' (reply : string) (deferred : bool)
    (tr1 : list event) :
  OnMessage_command self (input_of req) = (self', reply, deferred, tr1) ->
  AdminsConfig self' = AdminsConfig self ->
  AdminsConfig (fst (OnMessage self req res)) = AdminsConfig self.
Proof.
  intros Hc Hf. unfold OnMessage.
  destruct (IsAdmin self (uid_of req)).
  - rewrite Hc. destruct (String.eqb reply "").
    + destruct (GetReply _ _ _ _ _) as [text brain]. exact Hf.
    + exact Hf.
  - cbn [String.eqb]. now destruct (GetReply _ _ _ _ _) as [text brain].
Qed.

(** C10. The admin list is the same before and after [OnMessage] for every
    request that is forwarded to the reply engine (the sender is no admin,
    or the input starts with none of the four commands), handled by
    [!reload], handled by [!halt], or answered with a syntax error.  When
    the list does change, the sender was an admin and the input was
    [!op <name>] or [!deop <name>] with a name the pattern accepts. *)
Theorem admins_unchanged_outside_successful_op_deop self req res :
  let uid := uid_of req in
  let input := input_of req in
  let after := fst (OnMessage self req res) in
  ((IsAdmin self uid = false
    \/ Index input "!reload" = 0
    \/ (Index input "!op" = 0 /\ FindStringSubmatch RE_OP input = [])
    \/ (Index input "!deop" = 0 /\ FindStringSubmatch RE_DEOP input = [])
    \/ Index input "!halt" = 0
    \/ (Index input "!reload" <> 0 /\ Index input "!op" <> 0
        /\ Index input "!deop" <> 0 /\ Index input "!halt" <> 0)) ->
   AdminsConfig after = AdminsConfig self)
  /\ (AdminsConfig after <> AdminsConfig self ->
      IsAdmin self uid = true
      /\ exists name, class_plus name_class name = true
           /\ ((input = "!op " +:+ name
                /\ types.Admins (AdminsConfig after)
                   = types.Admins (AdminsConfig self) ++ [name])
               \/ (input = "!deop " +:+ name
                   /\ types.Admins (AdminsConfig after)
                      = deop_loop (types.Admins (AdminsConfig self)) name))).
Proof.
  cbn zeta. split.
  - assert (Hz : forall p, Index (input_of req) p = 0 -> HasPrefix (input_of req) p = true).
    { intros p Hp. rewrite <- Index_eqb_0. now apply Z.eqb_eq. }
    assert (Hnz : forall p, Index (input_of req) p <> 0 -> HasPrefix (input_of req) p = false).
    { intros p Hp. rewrite <- Index_eqb_0. now apply Z.eqb_neq. }
    intros [Hna | [Hr | [[Hp Hm] | [[Hp Hm] | [Hh | (H1 & H2 & H3 & H4)]]]]].
    + now rewrite (OnMessage_not_admin _ _ _ Hna).
    + eapply OnMessage_frame; [apply command_reload; auto | reflexivity].
    + eapply OnMessage_frame; [apply command_op_syntax; auto | reflexivity].
    + eapply OnMessage_frame; [apply command_deop_syntax; auto | reflexivity].
    + eapply OnMessage_frame; [apply command_halt; auto | reflexivity].
    + eapply OnMessage_frame; [apply command_none; auto | reflexivity].
  - intros Hchanged.
    destruct (IsAdmin self (uid_of req)) eqn:Ha.
    2:{ exfalso. apply Hchanged. now rewrite (OnMessage_not_admin _ _ _ Ha). }
    split; [reflexivity|].
    destruct (OnMessage_command_branch self (input_of req))
      as (self' & reply & deferred & tr1 & Hc & Hb).
    destruct Hb as [ | name Hi Hn | | name Hi Hn | | | ];
      try (exfalso; apply Hchanged; eapply OnMessage_frame; [exact Hc | reflexivity]).
    + exists name. split; [exact Hn|]. left. split; [exact Hi|].
      rewrite (OnMessage_admin_command self req res _ _ _ _ Ha Hc)
        by (apply app_nonempty_r; discriminate).
      reflexivity.
    + exists name. split; [exact Hn|]. right. split; [exact Hi|].
      rewrite (OnMessage_admin_command self req res _ _ _ _ Ha Hc)
        by (apply app_nonempty_r; discriminate).
      reflexivity.
Qed.

(** *** The reply *)

Lemma replies_on_app res (tr1 tr2 : list event) :
  replies_on res (tr1 ++ tr2) = replies_on res tr1 ++ replies_on res tr2.
Proof.
  induction tr1 as [|e tr1 IH]; [reflexivity|].
  destruct e as [ | | | | c [[ | a | | | ]] | | ]; simpl; try exact IH.
  destruct (Nat.eqb c res); simpl; now rewrite IH.
Qed.

Lemma replies_on_Shutdown res self : replies_on res (Shutdown self) = [].
Proof.
  unfold Shutdown. induction (range_map (Listeners self)) as [|[id bot] l IH];
    [reflexivity | exact IH].
Qed.

Lemma replies_on_answer res (username reply : string) :
  replies_on res [EvSend res (answer_envelope username reply)] = [reply].
Proof. simpl. now rewrite Nat.eqb_refl. Qed.

(** *** Trimming *)

Lemma byteIn_space (c : ascii) : byteIn " " c = true <-> c = " "%char.
Proof.
  simpl. destruct (Ascii.eqb_spec c " "); split; congruence.
Qed.

Lemma TrimLeft_spaces (s : string) :
  exists n, s = spaces n +:+ TrimLeft s " "
            /\ first_byte (TrimLeft s " ") <> Some " "%char.
Proof.
  induction s as [|c s (n & Hs & Hf)].
  - exists 0%nat. split; [reflexivity | discriminate].
  - cbn [TrimLeft]. destruct (byteIn " " c) eqn:Hc.
    + apply byteIn_space in Hc as ->. exists (S n). split; [|exact Hf].
      cbn [spaces]. rewrite app_String. now rewrite <- Hs.
    + exists 0%nat. split; [reflexivity|]. cbn [first_byte]. intros [= ->].
      discriminate.
Qed.

Lemma TrimRight_spaces (s : string) :
  exists m, s = TrimRight s " " +:+ spaces m
            /\ last_byte (TrimRight s " ") <> Some " "%char.
Proof.
  induction s as [|c s (m & Hs & Hl)].
  - exists 0%nat. split; [reflexivity | discriminate].
  - cbn [TrimRight]. destruct (TrimRight s " ") as [|k kept] eqn:Hk.
    + rewrite app_empty_l in Hs. destruct (byteIn " " c) eqn:Hc.
      * apply byteIn_space in Hc as ->. exists (S m). split; [|discriminate].
        rewrite app_empty_l. cbn [spaces]. now rewrite <- Hs.
      * exists m. split; [rewrite app_String, app_empty_l; now rewrite <- Hs|].
        cbn [last_byte]. intros [= ->]. discriminate.
    + exists m. split; [rewrite app_String; now rewrite <- Hs|].
      exact Hl.
Qed.

Lemma TrimRight_first_byte (s : string) :
  first_byte s <> Some " "%char -> first_byte (TrimRight s " ") <> Some " "%char.
Proof.
  destruct s as [|c s]; [discriminate|]. cbn [TrimRight first_byte]. intros Hc.
  destruct (TrimRight s " "); [|exact Hc].
  destruct (byteIn " " c); [discriminate | exact Hc].
Qed.

(** C8, as the code has it.  The input that is tested against the command
    prefixes is the raw message without its leading and trailing space
    characters (U+0020), and only those: the message is some spaces, then
    the input, then some spaces, and the input neither starts nor ends with
    a space.  A message that does not start or end with a space (it may
    start or end with a tab or a newline) is its own input. *)
Theorem input_is_message_without_surrounding_spaces req :
  (exists n m,
     types.Message req = spaces n +:+ input_of req +:+ spaces m
     /\ first_byte (input_of req) <> Some " "%char
     /\ last_byte (input_of req) <> Some " "%char)
  /\ (first_byte (types.Message req) <> Some " "%char ->
      last_byte (types.Message req) <> Some " "%char ->
      input_of req = types.Message req).
Proof.
  unfold input_of, Trim. split.
  - destruct (TrimLeft_spaces (types.Message req)) as (n & Hn & Hf).
    destruct (TrimRight_spaces (TrimLeft (types.Message req) " ")) as (m & Hm & Hl).
    exists n, m. split; [|split].
    + now rewrite <- Hm.
    + now apply TrimRight_first_byte.
    + exact Hl.
  - intros Hf Hl.
    assert (HL : TrimLeft (types.Message req) " " = types.Message req).
    { destruct (types.Message req) as [|c s]; [reflexivity|]. cbn [TrimLeft].
      destruct (byteIn " " c) eqn:Hc; [|reflexivity].
      apply byteIn_space in Hc as ->. now contradiction Hf. }
    rewrite HL. clear HL Hf. induction (types.Message req) as [|c s IH]; [reflexivity|].
    cbn [TrimRight]. destruct s as [|k s].
    + cbn [TrimRight]. destruct (byteIn " " c) eqn:Hc; [|reflexivity].
      apply byteIn_space in Hc as ->. now contradiction Hl.
    + rewrite IH by exact Hl. reflexivity.
Qed.

(** *** Activation *)

Lemma not_NoDup_cons (x : string) (l : list string) :
  ~ NoDup (x :: l) -> x ∈ l \/ ~ NoDup l.
Proof.
  intros Hn. destruct (decide (x ∈ l)) as [Hin|Hnin]; [now left|].
  right. intros Hl. apply Hn. now constructor.
Qed.

(** The loop of [StartAllBots] from any point: when an id still to come
    repeats an earlier one or is already active, the loop starts the
    enabled registrations before the first such id and exits there. *)
Lemma StartAllBots_loop_duplicate (todo : list types.ListenerConfig) :
  forall self,
    constructible todo ->
    (~ NoDup (enabled_ids todo)
     \/ exists x, x ∈ enabled_ids todo /\ is_Some (Listeners self !! x)) ->
    exists pre dup post,
      List.filter types.Enabled todo = pre ++ dup :: post
      /\ NoDup (map types.Id pre)
      /\ (forall x, x ∈ map types.Id pre -> Listeners self !! x = None)
      /\ (types.Id dup ∈ map types.Id pre \/ is_Some (Listeners self !! types.Id dup))
      /\ exited (fst (StartAllBots_loop todo self)) = Some 1
      /\ started_ids (snd (StartAllBots_loop todo self)) = map types.Id pre.
Proof.
  induction todo as [|cfg rest IH]; intros self Hcons Hdup.
  { exfalso. destruct Hdup as [Hn | (x & Hx & _)].
    - apply Hn. constructor.
    - unfold enabled_ids in Hx. simpl in Hx. now apply elem_of_nil in Hx. }
  assert (Hrest : constructible rest).
  { intros c Hc. apply Hcons. now right. }
  cbn [StartAllBots_loop]. unfold enabled_ids in *. cbn [List.filter] in *.
  destruct (types.Enabled cfg) eqn:Hen; cbn [negb].
  2:{ now apply IH. }
  cbn [map] in Hdup.
  destruct (Listeners self !! types.Id cfg) as [l0|] eqn:Hlook.
  { exists [], cfg, (List.filter types.Enabled rest). cbn.
    repeat split; [constructor | | right; eauto].
    intros x Hx. now apply elem_of_nil in Hx. }
  destruct (Hcons cfg (list_elem_of_here _ _) Hen (NextChan self) (S (NextChan self)))
    as [l Hl].
  rewrite Hl.
  set (self' := set_Listeners (set_NextChan self _) _).
  assert (Hdup' : ~ NoDup (map types.Id (List.filter types.Enabled rest))
                  \/ exists x, x ∈ map types.Id (List.filter types.Enabled rest)
                               /\ is_Some (Listeners self' !! x)).
  { assert (Hself : is_Some (Listeners self' !! types.Id cfg)).
    { subst self'. cbn. rewrite lookup_insert_eq. eauto. }
    destruct Hdup as [Hn | (x & Hx & Hs)].
    - apply not_NoDup_cons in Hn as [Hin | Hn]; [right | now left].
      exists (types.Id cfg). split; [exact Hin | exact Hself].
    - right. apply elem_of_cons in Hx as [-> | Hx].
      + rewrite Hlook in Hs. now destruct Hs.
      + exists x. split; [exact Hx|]. subst self'. cbn.
        destruct (decide (types.Id cfg = x)) as [->|Hne];
          [rewrite lookup_insert_eq; eauto | now rewrite lookup_insert_ne]. }
  destruct (IH self' Hrest Hdup') as (pre & dup & post & Hf & Hnd & Hfree & Hd & Hex & Hst).
  destruct (StartAllBots_loop rest self') as [r tr] eqn:Hloop.
  cbn [fst snd] in Hex, Hst |- *.
  assert (Hfresh : types.Id cfg ∉ map types.Id pre).
  { intros Hin. specialize (Hfree _ Hin). subst self'. cbn in Hfree.
    rewrite lookup_insert_eq in Hfree. discriminate. }
  exists (cfg :: pre), dup, post. cbn [map started_ids app].
  split; [now rewrite Hf|].
  split; [now constructor|].
  split.
  { intros x [-> | Hx]%elem_of_cons; [exact Hlook|].
    specialize (Hfree _ Hx). subst self'. cbn in Hfree.
    destruct (decide (types.Id cfg = x)) as [E|Hne];
      [rewrite E in Hfresh; contradiction|].
    rewrite lookup_insert_ne in Hfree by exact Hne. exact Hfree. }
  split.
  { destruct Hd as [Hd | Hd]; [left; now right|].
    subst self'. cbn in Hd.
    destruct (decide (types.Id cfg = types.Id dup)) as [E|Hne].
    - left. rewrite <- E. now left.
    - right. rewrite lookup_insert_ne in Hd by exact Hne. exact Hd. }
  split; [exact Hex | now rewrite Hst].
Qed.

(** C1, as the code has it.  When the storage is ready, no listener is
    active yet and every enabled registration has a registered type, a
    configuration whose enabled registrations contain a duplicate id makes
    [StartAllBots] exit with status 1 when the loop reaches the first
    registration whose id repeats an earlier one.  [Start()] has then been
    invoked, in order, for the enabled registrations before it (their ids
    are distinct, and there is at least one: the earlier holder of the id),
    and it is invoked neither for the repeating registration nor for any
    later one. *)
Theorem duplicate_id_exits_at_second_occurrence self :
  Ready (DB_ self) = true ->
  Listeners self = ∅ ->
  constructible (types.Listeners (BotsConfig self)) ->
  ~ NoDup (enabled_ids (types.Listeners (BotsConfig self))) ->
  exists pre dup post,
    List.filter types.Enabled (types.Listeners (BotsConfig self)) = pre ++ dup :: post
    /\ NoDup (map types.Id pre)
    /\ types.Id dup ∈ map types.Id pre
    /\ exited (fst (StartAllBots self)) = Some 1
    /\ started_ids (snd (StartAllBots self)) = map types.Id pre.
Proof.
  intros Hready Hempty Hcons Hdup. unfold StartAllBots. rewrite Hready. cbn [negb].
  destruct (StartAllBots_loop_duplicate _ self Hcons (or_introl Hdup))
    as (pre & dup & post & Hf & Hnd & _ & Hd & Hex & Hst).
  exists pre, dup, post. repeat split; try assumption.
  destruct Hd as [Hd | [l Hl]]; [exact Hd|].
  rewrite Hempty, lookup_empty in Hl. discriminate.
Qed.

End Properties.

(* ===================================================================== *)
(** ** Further properties: activation and shutdown                        *)
(* ===================================================================== *)

Section Activation.

Context `{C : Collaborators}.

Implicit Types (self : Scarecrow) (todo : list types.ListenerConfig).

Lemma started_ids_started (tr : list event) : started_ids tr = (started tr).*1.
Proof.
  induction tr as [|e tr IH]; [reflexivity|].
  destruct e; simpl; now rewrite ?IH.
Qed.

(** What the loop of [StartAllBots] keeps, from any registration on. *)
Lemma StartAllBots_loop_keeps todo :
  forall self,
    let r := fst (StartAllBots_loop todo self) in
    let tr := snd (StartAllBots_loop todo self) in
    started_ids tr `sublist_of` enabled_ids todo
    /\ (forall id l, Listeners self !! id = Some l -> Listeners (state r) !! id = Some l)
    /\ (forall id l, (id, l) ∈ started tr -> Listeners (state r) !! id = Some l)
    /\ dom (Listeners (state r))
       =@{gset string} dom (Listeners self) ∪ list_to_set (started_ids tr)
    /\ (exited r = None \/ exited r = Some 1)
    /\ (AdminsConfig (state r) = AdminsConfig self
        /\ Brain (state r) = Brain self
        /\ BotsConfig (state r) = BotsConfig self
        /\ DB_ (state r) = DB_ self
        /\ Debug (state r) = Debug self).
Proof.
  induction todo as [|cfg rest IH]; intros self; cbn zeta.
  { cbn. split; [constructor|]. repeat split; auto.
    - intros id l Hin. now apply elem_of_nil in Hin.
    - set_solver. }
  cbn [StartAllBots_loop]. unfold enabled_ids. cbn [List.filter].
  destruct (types.Enabled cfg) eqn:Hen; cbn [negb].
  2:{ exact (IH self). }
  cbn [map].
  destruct (Listeners self !! types.Id cfg) as [l0|] eqn:Hlook.
  { cbn. split; [apply sublist_nil_l|]. repeat split; auto.
    - intros id l Hin. now apply elem_of_nil in Hin.
    - set_solver. }
  destruct (Create (types.Type_ cfg) cfg (NextChan self) (S (NextChan self)))
    as [l|] eqn:Hcreate.
  2:{ destruct (IH (set_NextChan self (S (S (NextChan self)))))
        as (Hsub & Hkeep & Hrec & Hdom & Hex & Hframe).
      split; [now apply sublist_cons|]. repeat split; try tauto. }
  set (self' := set_Listeners (set_NextChan self _) _).
  destruct (IH self') as (Hsub & Hkeep & Hrec & Hdom & Hex & Hframe).
  destruct (StartAllBots_loop rest self') as [r tr] eqn:Hloop.
  cbn [fst snd started_ids started] in *.
  assert (Hself' : Listeners self' = <[types.Id cfg := l]> (Listeners self))
    by reflexivity.
  split; [now apply sublist_skip|].
  split.
  { intros id l1 Hl1. apply Hkeep. rewrite Hself'.
    rewrite lookup_insert_ne; [exact Hl1 | congruence]. }
  split.
  { intros id l1 [E | Hin]%elem_of_cons.
    - injection E as -> ->. apply Hkeep. rewrite Hself'. apply lookup_insert_eq.
    - now apply Hrec. }
  split.
  { rewrite Hdom, Hself', dom_insert_L. set_solver. }
  split; [exact Hex | exact Hframe].
Qed.

(** X1. [StartAllBots] invokes [Start()] only for enabled registrations and
    in registration order: the ids it starts are a subsequence of the ids of
    the enabled registrations.  A registration with [enabled = false] whose
    id no enabled registration carries is never started and is not among
    the active listeners afterwards, unless it was active before. *)
Theorem StartAllBots_starts_only_enabled self :
  let r := fst (StartAllBots self) in
  let tr := snd (StartAllBots self) in
  started_ids tr `sublist_of` enabled_ids (types.Listeners (BotsConfig self))
  /\ (forall id, id ∉ enabled_ids (types.Listeners (BotsConfig self)) ->
        (id ∉ started_ids tr)
        /\ Listeners (state r) !! id = Listeners self !! id).
Proof.
  cbn zeta. unfold StartAllBots.
  destruct (Ready (DB_ self)); cbn [negb].
  2:{ cbn. split; [apply sublist_nil_l|]. intros id _. split; [|reflexivity].
      intros Hin. now apply elem_of_nil in Hin. }
  destruct (StartAllBots_loop_keeps (types.Listeners (BotsConfig self)) self)
    as (Hsub & Hkeep & _ & Hdom & _).
  split; [exact Hsub|]. intros id Hid.
  assert (Hns : id ∉ started_ids (snd (StartAllBots_loop
                                        (types.Listeners (BotsConfig self)) self))).
  { intros Hin. apply Hid. eapply elem_of_sublist; eauto. }
  split; [exact Hns|].
  destruct (Listeners self !! id) as [l|] eqn:Hl; [now apply Hkeep|].
  apply not_elem_of_dom. rewrite Hdom.
  apply not_elem_of_dom in Hl. set_solver.
Qed.

(** X2. [StartAllBots] never removes or replaces an active listener, and it
    records every listener it starts under the id of its registration: the
    active ids afterwards are the ids active before plus the ids started.
    It leaves the admin list, the brain and the configuration alone. *)
Theorem StartAllBots_records_what_it_starts self :
  let r := fst (StartAllBots self) in
  let tr := snd (StartAllBots self) in
  (forall id l, Listeners self !! id = Some l -> Listeners (state r) !! id = Some l)
  /\ (forall id l, (id, l) ∈ started tr -> Listeners (state r) !! id = Some l)
  /\ dom (Listeners (state r))
     =@{gset string} dom (Listeners self) ∪ list_to_set (started_ids tr)
  /\ AdminsConfig (state r) = AdminsConfig self
  /\ Brain (state r) = Brain self
  /\ BotsConfig (state r) = BotsConfig self.
Proof.
  cbn zeta. unfold StartAllBots.
  destruct (Ready (DB_ self)); cbn [negb].
  2:{ cbn. repeat split; auto.
      - intros id l Hin. now apply elem_of_nil in Hin.
      - set_solver. }
  destruct (StartAllBots_loop_keeps (types.Listeners (BotsConfig self)) self)
    as (_ & Hkeep & Hrec & Hdom & _ & Hframe).
  repeat split; try assumption; tauto.
Qed.

(** The loop when no id collides: no exit; and with every type registered,
    every enabled registration is started. *)
Lemma StartAllBots_loop_distinct todo :
  forall self,
    NoDup (enabled_ids todo) ->
    (forall id, id ∈ enabled_ids todo -> Listeners self !! id = None) ->
    exited (fst (StartAllBots_loop todo self)) = None
    /\ (constructible todo ->
        started_ids (snd (StartAllBots_loop todo self)) = enabled_ids todo).
Proof.
  induction todo as [|cfg rest IH]; intros self Hnd Hfree.
  { now split. }
  cbn [StartAllBots_loop]. unfold enabled_ids in *. cbn [List.filter] in *.
  destruct (types.Enabled cfg) eqn:Hen; cbn [negb].
  2:{ destruct (IH self Hnd Hfree) as [Hex Hst]. split; [exact Hex|].
      intros Hc. apply Hst. intros c Hin. apply Hc. now right. }
  cbn [map] in *. apply NoDup_cons in Hnd as [Hnotin Hnd].
  rewrite (Hfree (types.Id cfg)) by now left.
  destruct (Create (types.Type_ cfg) cfg (NextChan self) (S (NextChan self)))
    as [l|] eqn:Hcreate.
  - set (self' := set_Listeners (set_NextChan self _) _).
    assert (Hfree' : forall id, id ∈ map types.Id (List.filter types.Enabled rest) ->
                                Listeners self' !! id = None).
    { intros id Hin. subst self'. cbn.
      rewrite lookup_insert_ne; [apply Hfree; now right | congruence]. }
    destruct (IH self' Hnd Hfree') as [Hex Hst].
    destruct (StartAllBots_loop rest self') as [r tr]. cbn [fst snd] in *.
    split; [exact Hex|]. intros Hc. cbn [started_ids]. f_equal.
    apply Hst. intros c Hin. apply Hc. now right.
  - assert (Hfree' : forall id, id ∈ map types.Id (List.filter types.Enabled rest) ->
                                Listeners (set_NextChan self (S (S (NextChan self)))) !! id
                                = None).
    { intros id Hin. cbn. apply Hfree. now right. }
    destruct (IH _ Hnd Hfree') as [Hex _].
    split; [exact Hex|]. intros Hc. exfalso.
    destruct (Hc cfg (list_elem_of_here _ _) Hen (NextChan self) (S (NextChan self)))
      as [l Hl].
    congruence.
Qed.

(** X3. The only exit status of [StartAllBots] is 1, and it never exits
    when the storage is not ready, nor when the enabled registrations have
    distinct ids of which none is active yet, whatever [listeners.Create]
    returns: an unknown listener type alone never ends the process. *)
Theorem StartAllBots_exits_only_on_collision self :
  (exited (fst (StartAllBots self)) = None \/ exited (fst (StartAllBots self)) = Some 1)
  /\ (Ready (DB_ self) = false -> StartAllBots self = (mkResult self None, []))
  /\ (NoDup (enabled_ids (types.Listeners (BotsConfig self))) ->
      (forall id, id ∈ enabled_ids (types.Listeners (BotsConfig self)) ->
                  Listeners self !! id = None) ->
      exited (fst (StartAllBots self)) = None).
Proof.
  unfold StartAllBots. destruct (Ready (DB_ self)); cbn [negb].
  - split; [|split; [discriminate|]].
    + apply (StartAllBots_loop_keeps (types.Listeners (BotsConfig self)) self).
    + intros Hnd Hfree. now apply StartAllBots_loop_distinct.
  - cbn. auto.
Qed.

(** X4. When the storage is ready, every enabled registration has a
    registered listener type, and the enabled ids are distinct and not
    active yet, [StartAllBots] returns without exiting, has invoked
    [Start()] once for every enabled registration, in registration order,
    and every one of these ids is active afterwards. *)
Theorem StartAllBots_starts_every_enabled self :
  Ready (DB_ self) = true ->
  constructible (types.Listeners (BotsConfig self)) ->
  NoDup (enabled_ids (types.Listeners (BotsConfig self))) ->
  (forall id, id ∈ enabled_ids (types.Listeners (BotsConfig self)) ->
              Listeners self !! id = None) ->
  exited (fst (StartAllBots self)) = None
  /\ started_ids (snd (StartAllBots self))
     = enabled_ids (types.Listeners (BotsConfig self))
  /\ (forall id, id ∈ enabled_ids (types.Listeners (BotsConfig self)) ->
        is_Some (Listeners (state (fst (StartAllBots self))) !! id)).
Proof.
  intros Hready Hcons Hnd Hfree.
  unfold StartAllBots. rewrite Hready. cbn [negb].
  destruct (StartAllBots_loop_keeps (types.Listeners (BotsConfig self)) self)
    as (_ & _ & _ & Hdom & _).
  destruct (StartAllBots_loop_distinct _ self Hnd Hfree) as [Hex Hst].
  specialize (Hst Hcons).
  split; [exact Hex|]. split; [exact Hst|].
  intros id Hid. apply elem_of_dom. rewrite Hdom, Hst. set_solver.
Qed.

(** Every channel given to a routing task was made after the ones the
    dispatcher already had. *)
Lemma StartAllBots_loop_channels todo :
  forall self,
    let tr := snd (StartAllBots_loop todo self) in
    Forall (fun c => (NextChan self <= c)%nat) (spawned_channels tr)
    /\ NoDup (spawned_channels tr).
Proof.
  induction todo as [|cfg rest IH]; intros self; cbn zeta.
  { cbn. split; constructor. }
  cbn [StartAllBots_loop].
  destruct (types.Enabled cfg); cbn [negb]; [|exact (IH self)].
  destruct (Listeners self !! types.Id cfg); [cbn; split; constructor|].
  destruct (Create (types.Type_ cfg) cfg (NextChan self) (S (NextChan self))) as [l|].
  - set (self' := set_Listeners (set_NextChan self _) _).
    destruct (IH self') as [Hge Hnd].
    destruct (StartAllBots_loop rest self') as [r tr]. cbn [fst snd spawned_channels] in *.
    assert (Hnext : NextChan self' = S (S (NextChan self))) by reflexivity.
    rewrite Hnext in Hge. rewrite Forall_forall in Hge.
    split.
    + repeat constructor; try lia.
      apply Forall_forall. intros c Hc. specialize (Hge c Hc). lia.
    + repeat constructor; [| |exact Hnd].
      * intros [E | Hin]%elem_of_cons; [lia|]. specialize (Hge _ Hin). lia.
      * intros Hin. specialize (Hge _ Hin). lia.
  - destruct (IH (set_NextChan self (S (S (NextChan self))))) as [Hge Hnd].
    split; [|exact Hnd]. cbn [NextChan set_NextChan] in Hge.
    eapply Forall_impl; [exact Hge|]. intros c Hc. cbn in Hc. lia.
Qed.

(** X5. Every routing task [StartAllBots] spawns gets its own request and
    answer channel: the channels handed out are pairwise distinct.  When
    the input channel of every listener that is active at the call was made
    before it (its number is below the next one the dispatcher makes), none
    of the channels handed out is the input channel of such a listener. *)
Theorem StartAllBots_channels_are_fresh self :
  let chans := spawned_channels (snd (StartAllBots self)) in
  NoDup chans
  /\ ((forall id bot, Listeners self !! id = Some bot ->
                      (listeners.InputChannel bot < NextChan self)%nat) ->
      forall c id bot, c ∈ chans -> Listeners self !! id = Some bot ->
                       c <> listeners.InputChannel bot).
Proof.
  cbn zeta. unfold StartAllBots. destruct (Ready (DB_ self)); cbn [negb].
  - destruct (StartAllBots_loop_channels (types.Listeners (BotsConfig self)) self)
      as [Hge Hnd].
    split; [exact Hnd|]. intros Hold c id bot Hc Hbot E.
    rewrite Forall_forall in Hge. specialize (Hge c Hc).
    specialize (Hold id bot Hbot). lia.
  - cbn. split; [constructor|]. intros _ c id bot Hc. now apply elem_of_nil in Hc.
Qed.

(** X6. [Shutdown] sends one envelope per active listener, each of them a
    [Stop{}], on the input channel of an active listener; with no active
    listener it sends nothing. *)
Theorem Shutdown_one_stop_per_listener self :
  length (Shutdown self) = size (Listeners self)
  /\ (forall e, e ∈ Shutdown self ->
        exists id bot, Listeners self !! id = Some bot
                       /\ e = EvSend (listeners.InputChannel bot) stop_envelope)
  /\ (forall id bot, Listeners self !! id = Some bot ->
        EvSend (listeners.InputChannel bot) stop_envelope ∈ Shutdown self)
  /\ (Listeners self = ∅ -> Shutdown self = []).
Proof.
  unfold Shutdown.
  split; [|split; [|split]].
  - rewrite length_map, (range_map_perm (Listeners self)).
    apply length_map_to_list.
  - intros e He. apply list_elem_of_In, in_map_iff in He as ([id bot] & <- & Hin).
    exists id, bot. split; [|reflexivity].
    apply list_elem_of_In in Hin. rewrite (range_map_perm (Listeners self)) in Hin.
    now apply elem_of_map_to_list in Hin.
  - intros id bot Hl. apply list_elem_of_In, in_map_iff.
    exists (id, bot). split; [reflexivity|].
    apply list_elem_of_In. rewrite (range_map_perm (Listeners self)).
    now apply elem_of_map_to_list.
  - intros He. pose proof (range_map_perm (Listeners self)) as Hp.
    rewrite He, map_to_list_empty in Hp. apply Permutation_nil_r in Hp.
    now rewrite He, Hp.
Qed.

End Activation.

(* ===================================================================== *)
(** ** Further properties: message handling                               *)
(* ===================================================================== *)

Section Handling.

Context `{C : Collaborators}.

Import GoStrings GoRegexp.

Implicit Types (self : Scarecrow) (req : types.ReplyRequest) (res : chan).

(** The two shapes of a run of [OnMessage]: forwarded to the reply engine,
    or answered by a command branch. *)
Lemma OnMessage_cases self req res :
  (OnMessage self req res
   = (set_Brain self
        (snd (GetReply (Brain self) (types.BotUsername req) (uid_of req)
                       (types.Message req) (types.GroupChat req))),
      [EvGetReply (types.BotUsername req) (uid_of req) (types.Message req)
                  (types.GroupChat req);
       EvSend res (answer_envelope (types.Username req)
                     (fst (GetReply (Brain self) (types.BotUsername req) (uid_of req)
                                    (types.Message req) (types.GroupChat req))))])
   /\ (IsAdmin self (uid_of req) = false
       \/ OnMessage_command self (input_of req) = (self, "", false, [])))
  \/ (IsAdmin self (uid_of req) = true
      /\ exists self' reply deferred tr1,
           command_branch self (input_of req) self' reply deferred tr1
           /\ reply <> ""
           /\ OnMessage self req res
              = (self',
                 tr1 ++ [EvLogTransaction (uid_of req) (input_of req)
                                          (types.BotUsername req) reply]
                     ++ [EvSend res (answer_envelope (types.Username req) reply)]
                     ++ (if deferred then Shutdown self' else []))).
Proof.
  destruct (IsAdmin self (uid_of req)) eqn:Ha.
  2:{ left. split; [now apply OnMessage_not_admin | now left]. }
  destruct (OnMessage_command_branch self (input_of req))
    as (self' & reply & deferred & tr1 & Hc & Hb).
  destruct (command_branch_reply _ _ _ _ _ _ Hb) as [Hne | (-> & -> & -> & ->)].
  - right. split; [reflexivity|]. exists self', reply, deferred, tr1.
    split; [exact Hb|]. split; [exact Hne|].
    now apply OnMessage_admin_command.
  - left. split; [now apply OnMessage_admin_no_command | now right].
Qed.

(** Views of an event list distribute over concatenation. *)
Lemma sends_app (tr1 tr2 : list event) : sends (tr1 ++ tr2) = sends tr1 ++ sends tr2.
Proof.
  induction tr1 as [|e tr1 IH]; [reflexivity|]. destruct e; simpl; now rewrite IH.
Qed.

Lemma saved_configs_app (tr1 tr2 : list event) :
  saved_configs (tr1 ++ tr2) = saved_configs tr1 ++ saved_configs tr2.
Proof.
  induction tr1 as [|e tr1 IH]; [reflexivity|]. destruct e; simpl; now rewrite IH.
Qed.

Lemma engine_calls_app (tr1 tr2 : list event) :
  engine_calls (tr1 ++ tr2) = engine_calls tr1 ++ engine_calls tr2.
Proof.
  induction tr1 as [|e tr1 IH]; [reflexivity|]. destruct e; simpl; now rewrite IH.
Qed.

Lemma transactions_app (tr1 tr2 : list event) :
  transactions (tr1 ++ tr2) = transactions tr1 ++ transactions tr2.
Proof.
  induction tr1 as [|e tr1 IH]; [reflexivity|]. destruct e; simpl; now rewrite IH.
Qed.

Lemma answered_users_app res (tr1 tr2 : list event) :
  answered_users res (tr1 ++ tr2) = answered_users res tr1 ++ answered_users res tr2.
Proof.
  induction tr1 as [|e tr1 IH]; [reflexivity|].
  destruct e as [ | | | | c [[ | a | | | ]] | | ]; simpl; try exact IH.
  destruct (Nat.eqb c res); simpl; now rewrite IH.
Qed.

(** [Shutdown] only sends [Stop{}]. *)
Lemma Shutdown_views self res :
  Forall (fun s => snd s = stop_envelope) (sends (Shutdown self))
  /\ saved_configs (Shutdown self) = []
  /\ engine_calls (Shutdown self) = []
  /\ transactions (Shutdown self) = []
  /\ answered_users res (Shutdown self) = [].
Proof.
  unfold Shutdown.
  induction (range_map (Listeners self)) as [|[id bot] l (H1 & H2 & H3 & H4 & H5)].
  - repeat split; constructor.
  - repeat split; try assumption. simpl. constructor; [reflexivity | exact H1].
Qed.

(** The events of a command branch itself hold no send, no engine call and
    no transaction. *)
Lemma command_branch_views self (input : string) self' (reply : string)
    (deferred : bool) (tr1 : list event) res :
  command_branch self input self' reply deferred tr1 ->
  sends tr1 = [] /\ engine_calls tr1 = [] /\ transactions tr1 = []
  /\ answered_users res tr1 = [] /\ replies_on res tr1 = [].
Proof. intros []; repeat split. Qed.

(** X7. Every request gets its answer first: the first envelope
    [OnMessage] sends is a [ReplyAnswer] on the channel [res], addressed to
    the user who asked, and it is the only [ReplyAnswer].  Whatever is sent
    after it is a [Stop{}], and that happens only when the sender is an
    admin and the input starts with [!halt]. *)
Theorem OnMessage_answers_the_sender_first self req res :
  let tr := snd (OnMessage self req res) in
  exists reply stops,
    sends tr = (res, answer_envelope (types.Username req) reply) :: stops
    /\ Forall (fun s => snd s = stop_envelope) stops
    /\ answered_users res tr = [types.Username req]
    /\ (stops <> [] ->
        IsAdmin self (uid_of req) = true /\ HasPrefix (input_of req) "!halt" = true).
Proof.
  cbn zeta.
  destruct (OnMessage_cases self req res)
    as [[-> _] | (Ha & self' & reply & deferred & tr1 & Hb & Hne & ->)]; cbn [snd].
  - eexists _, []. cbn. rewrite Nat.eqb_refl.
    split; [reflexivity|]. split; [constructor|]. split; [reflexivity|].
    intros Hstops. now contradiction Hstops.
  - destruct (command_branch_views _ _ _ _ _ _ res Hb) as (Hs & _ & _ & Hu & _).
    destruct (Shutdown_views self' res) as (Hstop & _ & _ & _ & Hus).
    exists reply, (sends (if deferred then Shutdown self' else [])).
    rewrite !sends_app, !answered_users_app, Hs, Hu. cbn. rewrite Nat.eqb_refl.
    split; [reflexivity|]. split; [destruct deferred; [exact Hstop | constructor]|].
    split; [destruct deferred; [now rewrite Hus | reflexivity]|].
    intros Hstops. split; [exact Ha|].
    destruct Hb; try (now contradiction Hstops). assumption.
Qed.

(** X8. Every request is either forwarded to the reply engine or logged as
    a command transaction, never both and never neither.  A forwarded
    request reaches the engine once, with the raw message, and the engine's
    text is the reply; a command is logged once, with the trimmed input and
    the reply that is sent, and only an admin's input is ever logged. *)
Theorem OnMessage_forwards_or_logs self req res :
  let tr := snd (OnMessage self req res) in
  let engine := GetReply (Brain self) (types.BotUsername req) (uid_of req)
                         (types.Message req) (types.GroupChat req) in
  (engine_calls tr = [(types.BotUsername req, uid_of req, types.Message req,
                       types.GroupChat req)]
   /\ transactions tr = []
   /\ replies_on res tr = [fst engine]
   /\ Brain (fst (OnMessage self req res)) = snd engine)
  \/ (engine_calls tr = []
      /\ IsAdmin self (uid_of req) = true
      /\ exists reply,
           reply <> ""
           /\ transactions tr = [(uid_of req, input_of req, types.BotUsername req, reply)]
           /\ replies_on res tr = [reply]).
Proof.
  cbn zeta.
  destruct (OnMessage_cases self req res)
    as [[-> _] | (Ha & self' & reply & deferred & tr1 & Hb & Hne & ->)]; cbn [snd fst].
  - left. cbn. rewrite Nat.eqb_refl. repeat split.
  - right. destruct (command_branch_views _ _ _ _ _ _ res Hb) as (_ & He & Ht & _ & Hr).
    destruct (Shutdown_views self' res) as (_ & _ & Hse & Hst & _).
    rewrite !engine_calls_app, !transactions_app, !replies_on_app, He, Ht, Hr.
    cbn. rewrite Nat.eqb_refl.
    split; [destruct deferred; [exact Hse | reflexivity]|]. split; [exact Ha|].
    exists reply. split; [exact Hne|].
    destruct deferred; [rewrite Hst, replies_on_Shutdown | ]; now split.
Qed.

(** C4, as the code has it.  [OnMessage] sends exactly one reply on the
    answer channel, to the user who asked.  Either the request was
    forwarded and the reply is exactly the text the reply engine returned
    for it, or no engine was consulted, the sender is an admin and the reply
    is the text of a command branch, which is never empty:
    ["Brain reloaded!"], ["Syntax error."], ["Shutting down..."],
    ["<name> added to the admins list."] or
    ["<name> removed from the admins list."].  So the reply is empty only
    when the request was forwarded and the engine's text was empty, and it
    is not empty whenever the engine's text is not. *)
Theorem reply_is_command_text_or_engine_text self req res :
  let engine := fst (GetReply (Brain self) (types.BotUsername req) (uid_of req)
                              (types.Message req) (types.GroupChat req)) in
  let call := (types.BotUsername req, uid_of req, types.Message req,
               types.GroupChat req) in
  let tr := snd (OnMessage self req res) in
  exists reply,
    replies_on res tr = [reply]
    /\ In (EvSend res (answer_envelope (types.Username req) reply)) tr
    /\ ((reply = engine /\ engine_calls tr = [call])
        \/ (engine_calls tr = []
            /\ IsAdmin self (uid_of req) = true
            /\ reply <> ""
            /\ (reply = "Brain reloaded!"
                \/ reply = "Syntax error."
                \/ reply = "Shutting down..."
                \/ (exists name, class_plus name_class name = true
                                 /\ reply = name +:+ " added to the admins list.")
                \/ (exists name, class_plus name_class name = true
                                 /\ reply = name +:+ " removed from the admins list."))))
    /\ (reply = "" -> engine = "" /\ engine_calls tr = [call])
    /\ (engine <> "" -> reply <> "").
Proof.
  cbn zeta.
  destruct (OnMessage_cases self req res)
    as [[-> _] | (Ha & self' & reply & deferred & tr1 & Hb & Hne & ->)]; cbn [snd].
  - eexists. split; [apply replies_on_answer|]. split; [right; now left|].
    split; [left; now split|]. split; [intros E; now split | auto].
  - exists reply.
    destruct (command_branch_views _ _ _ _ _ _ res Hb) as (_ & He & _ & _ & Hr).
    destruct (Shutdown_views self' res) as (_ & _ & Hse & _ & _).
    assert (Hcalls : engine_calls
                       (tr1 ++ [EvLogTransaction (uid_of req) (input_of req)
                                                 (types.BotUsername req) reply]
                            ++ [EvSend res (answer_envelope (types.Username req) reply)]
                            ++ (if deferred then Shutdown self' else [])) = []).
    { rewrite !engine_calls_app, He. cbn.
      destruct deferred; [exact Hse | reflexivity]. }
    split.
    { rewrite !replies_on_app, Hr, replies_on_answer. cbn.
      destruct deferred; [now rewrite replies_on_Shutdown | reflexivity]. }
    split.
    { apply in_or_app. right. right. now left. }
    split; [|split; [contradiction | auto]].
    right. split; [exact Hcalls|]. split; [exact Ha|]. split; [exact Hne|].
    destruct Hb as [ | name _ Hn | | name _ Hn | | | ].
    + now left.
    + right. right. right. left. now exists name.
    + right. now left.
    + right. right. right. right. now exists name.
    + right. now left.
    + right. right. now left.
    + now contradiction Hne.
Qed.

(** X9. The admin list is persisted whenever it is assigned: [OnMessage]
    calls [SaveAdminsConfig] at most once, with the configuration the
    dispatcher holds afterwards; when it does not call it, the admin
    configuration is the one it was before. *)
Theorem OnMessage_saves_the_admins_it_sets self req res :
  let tr := snd (OnMessage self req res) in
  let after := fst (OnMessage self req res) in
  (saved_configs tr = [] /\ AdminsConfig after = AdminsConfig self)
  \/ (saved_configs tr = [AdminsConfig after] /\ IsAdmin self (uid_of req) = true).
Proof.
  cbn zeta.
  destruct (OnMessage_cases self req res)
    as [[-> _] | (Ha & self' & reply & deferred & tr1 & Hb & Hne & ->)]; cbn [snd fst].
  - left. now split.
  - destruct (Shutdown_views self' res) as (_ & Hsv & _).
    rewrite !saved_configs_app.
    assert (Hd : saved_configs (if deferred then Shutdown self' else []) = [])
      by (destruct deferred; [exact Hsv | reflexivity]).
    rewrite Hd. destruct Hb; cbn; auto.
Qed.

(** X10. [OnMessage] never touches the mapping of active listeners, the
    listener configuration, the storage handle, the debug flag or the
    channel allocator: no message, from anyone, starts or removes a
    listener. *)
Theorem OnMessage_keeps_the_listeners self req res :
  let after := fst (OnMessage self req res) in
  Listeners after = Listeners self
  /\ BotsConfig after = BotsConfig self
  /\ DB_ after = DB_ self
  /\ Debug after = Debug self
  /\ NextChan after = NextChan self.
Proof.
  cbn zeta.
  destruct (OnMessage_cases self req res)
    as [[-> _] | (Ha & self' & reply & deferred & tr1 & Hb & Hne & ->)]; cbn [fst].
  - repeat split.
  - destruct Hb; repeat split.
Qed.

(** X11. An admin's input that starts with [!reload] reloads the brain,
    whatever follows the word: the brain is replaced by what [InitBrain]
    builds, the reply is ["Brain reloaded!"], the transaction is logged and
    the reply engine is not consulted. *)
Theorem reload_ignores_trailing_text self req res :
  IsAdmin self (uid_of req) = true ->
  HasPrefix (input_of req) "!reload" = true ->
  OnMessage self req res
  = (set_Brain self (InitBrain (Brain self)),
     [EvInitBrain;
      EvLogTransaction (uid_of req) (input_of req) (types.BotUsername req)
                       "Brain reloaded!";
      EvSend res (answer_envelope (types.Username req) "Brain reloaded!")]).
Proof.
  intros Ha Hp.
  rewrite (OnMessage_admin_command self req res _ _ _ _ Ha (command_reload self _ Hp))
    by discriminate.
  reflexivity.
Qed.

(** X12. An admin's input that starts with [!op] or [!deop] and is not the
    command word, one space and a name of [[A-Za-z0-9.@_-]+] is answered
    with ["Syntax error."] and changes nothing; it is never passed to the
    reply engine.  This includes the bare word and longer words such as
    [!operator]. *)
Theorem op_deop_prefix_without_name_is_syntax_error self req res (cmd : string) :
  IsAdmin self (uid_of req) = true ->
  cmd = "!op" \/ cmd = "!deop" ->
  HasPrefix (input_of req) cmd = true ->
  (forall name, input_of req = cmd +:+ " " +:+ name -> class_plus name_class name = false) ->
  OnMessage self req res
  = (self,
     [EvLogTransaction (uid_of req) (input_of req) (types.BotUsername req) "Syntax error.";
      EvSend res (answer_envelope (types.Username req) "Syntax error.")]).
Proof.
  intros Ha Hcmd Hp Hbad.
  assert (Hcommand : OnMessage_command self (input_of req)
                     = (self, "Syntax error.", false, [])).
  { destruct Hcmd as [-> | ->].
    - apply command_op_syntax; [exact Hp|].
      destruct (FindStringSubmatch_cases RE_OP (input_of req))
        as [[Hm _] | (name & Hn & Hc & _)]; [exact Hm|].
      specialize (Hbad name Hn).
      change (class_plus name_class name = true) in Hc. congruence.
    - apply command_deop_syntax; [exact Hp|].
      destruct (FindStringSubmatch_cases RE_DEOP (input_of req))
        as [[Hm _] | (name & Hn & Hc & _)]; [exact Hm|].
      specialize (Hbad name Hn).
      change (class_plus name_class name = true) in Hc. congruence. }
  rewrite (OnMessage_admin_command self req res _ _ _ _ Ha Hcommand) by discriminate.
  reflexivity.
Qed.

(** *** Granting and revoking, as operations on the set of admins *)

Lemma deop_loop_is_filter (admins : list string) (name : string) :
  deop_loop admins name = List.filter (fun x => negb (String.eqb x name)) admins.
Proof.
  induction admins as [|a admins IH]; simpl; [reflexivity|].
  destruct (negb (String.eqb a name)); now rewrite IH.
Qed.

Lemma IsAdmin_loop_deop (admins : list string) (name u : string) :
  IsAdmin_loop (deop_loop admins name) u
  = IsAdmin_loop admins u && negb (String.eqb name u).
Proof.
  induction admins as [|a admins IH]; simpl; [reflexivity|].
  destruct (String.eqb_spec a name) as [->|Hne]; simpl.
  - rewrite IH. destruct (String.eqb name u); [|reflexivity].
    now rewrite andb_false_r.
  - rewrite IH. destruct (String.eqb_spec a u) as [->|Hau]; [|reflexivity].
    destruct (String.eqb_spec name u) as [->|_]; [contradiction | reflexivity].
Qed.

Lemma deop_loop_length (admins : list string) (name : string) :
  (length (deop_loop admins name) <= length admins)%nat
  /\ (In name admins -> (length (deop_loop admins name) < length admins)%nat).
Proof.
  induction admins as [|a admins [IHle IHlt]]; simpl; [split; [lia | tauto]|].
  destruct (String.eqb_spec a name) as [->|Hne]; simpl.
  - split; [lia|]. intros _. lia.
  - split; [lia|]. intros [E | Hin]; [contradiction|]. specialize (IHlt Hin). lia.
Qed.

(** What a successful [!op] and a successful [!deop] leave. *)
Lemma OnMessage_op self req res (name : string) :
  IsAdmin self (uid_of req) = true ->
  input_of req = "!op " +:+ name ->
  class_plus name_class name = true ->
  OnMessage self req res
  = (set_AdminsConfig self
       (types.mkAdminsConfig (types.Admins (AdminsConfig self) ++ [name])),
     [EvSaveAdminsConfig
        (types.mkAdminsConfig (types.Admins (AdminsConfig self) ++ [name]));
      EvLogTransaction (uid_of req) (input_of req) (types.BotUsername req)
                       (name +:+ " added to the admins list.");
      EvSend res (answer_envelope (types.Username req)
                                  (name +:+ " added to the admins list."))]).
Proof.
  intros Ha Hi Hc.
  pose proof (command_op_match self name Hc) as Hop. rewrite <- Hi in Hop.
  rewrite (OnMessage_admin_command self req res _ _ _ _ Ha Hop)
    by (apply app_nonempty_r; discriminate).
  reflexivity.
Qed.

Lemma OnMessage_deop self req res (name : string) :
  IsAdmin self (uid_of req) = true ->
  input_of req = "!deop " +:+ name ->
  class_plus name_class name = true ->
  OnMessage self req res
  = (set_AdminsConfig self
       (types.mkAdminsConfig (deop_loop (types.Admins (AdminsConfig self)) name)),
     [EvSaveAdminsConfig
        (types.mkAdminsConfig (deop_loop (types.Admins (AdminsConfig self)) name));
      EvLogTransaction (uid_of req) (input_of req) (types.BotUsername req)
                       (name +:+ " removed from the admins list.");
      EvSend res (answer_envelope (types.Username req)
                                  (name +:+ " removed from the admins list."))]).
Proof.
  intros Ha Hi Hc.
  pose proof (command_deop_match self name Hc) as Hdeop. rewrite <- Hi in Hdeop.
  rewrite (OnMessage_admin_command self req res _ _ _ _ Ha Hdeop)
    by (apply app_nonempty_r; discriminate).
  reflexivity.
Qed.

(** X13. A successful [!op <name>] appends the name to the admin list,
    saves the new list, logs the transaction and answers
    ["<name> added to the admins list."]; afterwards exactly the former
    admins and [<name>] pass the admin check.  The name is appended even
    when it is already in the list. *)
Theorem op_appends_and_admits_name self req res (name : string) :
  IsAdmin self (uid_of req) = true ->
  input_of req = "!op " +:+ name ->
  class_plus name_class name = true ->
  let admins' := types.Admins (AdminsConfig self) ++ [name] in
  OnMessage self req res
  = (set_AdminsConfig self (types.mkAdminsConfig admins'),
     [EvSaveAdminsConfig (types.mkAdminsConfig admins');
      EvLogTransaction (uid_of req) (input_of req) (types.BotUsername req)
                       (name +:+ " added to the admins list.");
      EvSend res (answer_envelope (types.Username req)
                                  (name +:+ " added to the admins list."))])
  /\ (forall u, IsAdmin (fst (OnMessage self req res)) u
                = IsAdmin self u || String.eqb name u).
Proof.
  intros Ha Hi Hc. cbn zeta. rewrite (OnMessage_op self req res name Ha Hi Hc).
  split; [reflexivity|]. intros u. cbn [fst]. unfold IsAdmin.
  cbn [AdminsConfig set_AdminsConfig types.Admins].
  rewrite IsAdmin_loop_app. simpl. now destruct (String.eqb name u).
Qed.

(** X14. A successful [!deop <name>] keeps, in order, the entries of the
    admin list that differ from the name, so every occurrence of the name
    goes; it saves the new list, logs the transaction and answers
    ["<name> removed from the admins list."].  Afterwards exactly the
    former admins other than [<name>] pass the admin check.  When the name
    was not in the list the list is unchanged, and it is saved and
    answered all the same. *)
Theorem deop_removes_every_occurrence self req res (name : string) :
  IsAdmin self (uid_of req) = true ->
  input_of req = "!deop " +:+ name ->
  class_plus name_class name = true ->
  let admins' := List.filter (fun x => negb (String.eqb x name))
                             (types.Admins (AdminsConfig self)) in
  OnMessage self req res
  = (set_AdminsConfig self (types.mkAdminsConfig admins'),
     [EvSaveAdminsConfig (types.mkAdminsConfig admins');
      EvLogTransaction (uid_of req) (input_of req) (types.BotUsername req)
                       (name +:+ " removed from the admins list.");
      EvSend res (answer_envelope (types.Username req)
                                  (name +:+ " removed from the admins list."))])
  /\ (forall u, IsAdmin (fst (OnMessage self req res)) u
                = IsAdmin self u && negb (String.eqb name u))
  /\ (~ In name (types.Admins (AdminsConfig self)) ->
      admins' = types.Admins (AdminsConfig self)).
Proof.
  intros Ha Hi Hc. cbn zeta. rewrite (OnMessage_deop self req res name Ha Hi Hc).
  rewrite <- !deop_loop_is_filter.
  split; [reflexivity|]. split.
  - intros u. cbn [fst]. unfold IsAdmin.
    cbn [AdminsConfig set_AdminsConfig types.Admins]. apply IsAdmin_loop_deop.
  - apply deop_loop_fresh.
Qed.

(** X15. [!op <name>] followed by [!deop <name>], both run by admins,
    leaves the admin list without any occurrence of the name: the list is
    the original one filtered by the name.  So the pair is not a round trip
    for a name that was an admin before: that name is gone and the list is
    shorter than it was. *)
Theorem op_then_deop_removes_earlier_entries self req1 req2 res1 res2 (name : string) :
  class_plus name_class name = true ->
  IsAdmin self (uid_of req1) = true ->
  input_of req1 = "!op " +:+ name ->
  IsAdmin (fst (OnMessage self req1 res1)) (uid_of req2) = true ->
  input_of req2 = "!deop " +:+ name ->
  let after := fst (OnMessage (fst (OnMessage self req1 res1)) req2 res2) in
  types.Admins (AdminsConfig after)
  = List.filter (fun x => negb (String.eqb x name)) (types.Admins (AdminsConfig self))
  /\ ~ In name (types.Admins (AdminsConfig after))
  /\ (In name (types.Admins (AdminsConfig self)) ->
      (length (types.Admins (AdminsConfig after))
       < length (types.Admins (AdminsConfig self)))%nat).
Proof.
  intros Hc Ha1 Hi1 Ha2 Hi2. cbn zeta.
  rewrite (OnMessage_op self req1 res1 name Ha1 Hi1 Hc) in Ha2 |- *.
  cbn [fst] in Ha2 |- *.
  rewrite (OnMessage_deop _ req2 res2 name Ha2 Hi2 Hc).
  cbn [fst AdminsConfig set_AdminsConfig types.Admins].
  rewrite <- !deop_loop_is_filter, deop_loop_app. simpl.
  rewrite String.eqb_refl. simpl. rewrite app_nil_r.
  split; [reflexivity|]. split.
  - intros Hin. apply deop_loop_filter in Hin. tauto.
  - apply deop_loop_length.
Qed.


(** *** Spaces around a command *)

Lemma string_app_assoc (s t u : string) : (s +:+ t) +:+ u = s +:+ (t +:+ u).
Proof.
  induction s as [|c s IH]; [reflexivity|].
  rewrite !app_String. now rewrite IH.
Qed.

Lemma TrimLeft_leading_spaces (n : nat) (s : string) :
  TrimLeft (spaces n +:+ s) " " = TrimLeft s " ".
Proof. induction n as [|n IH]; [reflexivity | exact IH]. Qed.

Lemma TrimLeft_only_spaces (m : nat) : TrimLeft (spaces m) " " = "".
Proof. induction m as [|m IH]; [reflexivity | exact IH]. Qed.

Lemma TrimRight_only_spaces (m : nat) : TrimRight (spaces m) " " = "".
Proof.
  induction m as [|m IH]; [reflexivity|]. cbn [spaces TrimRight]. now rewrite IH.
Qed.

Lemma TrimRight_trailing_spaces (s : string) (m : nat) :
  TrimRight (s +:+ spaces m) " " = TrimRight s " ".
Proof.
  induction s as [|c s IH]; [apply TrimRight_only_spaces|].
  rewrite app_String. cbn [TrimRight]. now rewrite IH.
Qed.

Lemma Trim_surrounding_spaces (n m : nat) (s : string) :
  Trim (spaces n +:+ s +:+ spaces m) " " = Trim s " ".
Proof.
  unfold Trim. rewrite TrimLeft_leading_spaces.
  destruct (TrimLeft_spaces s) as (k & Hs & Hf).
  destruct (TrimLeft s " ") as [|c t] eqn:Ht.
  - rewrite Hs at 1. rewrite string_app_assoc, TrimLeft_leading_spaces.
    rewrite app_empty_l, TrimLeft_only_spaces. reflexivity.
  - rewrite Hs at 1. rewrite string_app_assoc, TrimLeft_leading_spaces.
    rewrite app_String. cbn [TrimLeft].
    assert (Hc : byteIn " " c = false).
    { destruct (byteIn " " c) eqn:Hb; [|reflexivity].
      apply byteIn_space in Hb as ->. now contradiction Hf. }
    rewrite Hc, <- app_String. apply TrimRight_trailing_spaces.
Qed.

(** X17. Spaces before and after the message never change how a command
    is handled.  The padded request has the same trimmed input and the same
    routing identity.  When the sender is an admin and the input starts
    with [!reload], [!op] or [!deop], [OnMessage] gives the same state and
    the same events for the padded request as for the original one (no
    map is ranged over in these branches).  When it starts with [!halt],
    the padded request is handled as the halt it is: the state is
    unchanged, the transaction is logged with the trimmed input, the answer
    is ["Shutting down..."], and then one [Stop{}] goes to each active
    listener, in whatever order the map is ranged over. *)
Theorem spaces_around_a_command_are_irrelevant self req res (n m : nat) :
  input_of (padded n m req) = input_of req
  /\ uid_of (padded n m req) = uid_of req
  /\ (IsAdmin self (uid_of req) = true ->
      HasPrefix (input_of req) "!reload" = true
      \/ HasPrefix (input_of req) "!op" = true
      \/ HasPrefix (input_of req) "!deop" = true ->
      OnMessage self (padded n m req) res = OnMessage self req res
      /\ Forall (fun e => is_stop_send e = false) (snd (OnMessage self req res)))
  /\ (IsAdmin self (uid_of req) = true ->
      HasPrefix (input_of req) "!halt" = true ->
      fst (OnMessage self (padded n m req) res) = self
      /\ exists stops,
           snd (OnMessage self (padded n m req) res)
           = [EvLogTransaction (uid_of req) (input_of req) (types.BotUsername req)
                               "Shutting down...";
              EvSend res (answer_envelope (types.Username req) "Shutting down...")]
             ++ stops
           /\ stops ≡ₚ map (fun e => EvSend (listeners.InputChannel (snd e)) stop_envelope)
                           (map_to_list (Listeners self))).
Proof.
  assert (Hin : input_of (padded n m req) = input_of req)
    by apply Trim_surrounding_spaces.
  split; [exact Hin|]. split; [reflexivity|]. split.
  - intros Ha Hp.
    destruct (OnMessage_command_branch self (input_of req))
      as (self' & reply & deferred & tr1 & Hc & Hb).
    assert (Hshape : reply <> "" /\ deferred = false
                     /\ Forall (fun e => is_stop_send e = false) tr1).
    { destruct Hb as [ | name _ _ | | name _ _ | | Hh | H1 H2 H3 H4].
      - split; [discriminate|]. split; [reflexivity|]. repeat constructor.
      - split; [apply app_nonempty_r; discriminate|]. split; [reflexivity|].
        repeat constructor.
      - split; [discriminate|]. split; [reflexivity|]. constructor.
      - split; [apply app_nonempty_r; discriminate|]. split; [reflexivity|].
        repeat constructor.
      - split; [discriminate|]. split; [reflexivity|]. constructor.
      - exfalso. destruct (prefix_halt_not_earlier _ Hh) as (E1 & E2 & E3).
        destruct Hp as [Hp | [Hp | Hp]]; congruence.
      - exfalso. destruct Hp as [Hp | [Hp | Hp]]; congruence. }
    destruct Hshape as (Hne & -> & Htr1).
    rewrite (OnMessage_admin_command self req res _ _ _ _ Ha Hc Hne).
    assert (Ha' : IsAdmin self (uid_of (padded n m req)) = true) by exact Ha.
    assert (Hc' : OnMessage_command self (input_of (padded n m req))
                  = (self', reply, false, tr1)) by now rewrite Hin.
    rewrite (OnMessage_admin_command self (padded n m req) res _ _ _ _ Ha' Hc' Hne).
    split; [now rewrite Hin|]. cbn [snd].
    rewrite !Forall_app. split; [exact Htr1|]. repeat constructor.
  - intros Ha Hh.
    assert (Ha' : IsAdmin self (uid_of (padded n m req)) = true) by exact Ha.
    assert (Hh' : HasPrefix (input_of (padded n m req)) "!halt" = true)
      by now rewrite Hin.
    rewrite (OnMessage_admin_command self (padded n m req) res _ _ _ _ Ha'
               (command_halt self _ Hh')) by discriminate.
    cbn [fst snd]. split; [reflexivity|].
    exists (Shutdown self). rewrite Hin. split; [reflexivity|].
    unfold Shutdown. rewrite (range_map_perm (Listeners self)).
    erewrite map_ext; [reflexivity|]. now intros [id bot].
Qed.

(** *** Routing identities *)

Lemma dash_split_unique (s1 s2 t1 t2 : string) :
  byteIn s1 "-" = false -> byteIn s2 "-" = false ->
  s1 +:+ "-" +:+ t1 = s2 +:+ "-" +:+ t2 ->
  s1 = s2 /\ t1 = t2.
Proof.
  revert s2. induction s1 as [|c s1 IH]; intros [|d s2] H1 H2 E.
  - rewrite ?app_empty_l, ?app_String, ?app_empty_l in E. now injection E.
  - rewrite ?app_empty_l, ?app_String, ?app_empty_l in E. injection E as <- _.
    simpl in H2. discriminate H2.
  - rewrite ?app_empty_l, ?app_String, ?app_empty_l in E. injection E as -> _.
    simpl in H1. discriminate H1.
  - rewrite ?app_String in E. injection E as -> E.
    cbn [byteIn] in H1, H2.
    destruct (Ascii.eqb "-" d); [discriminate H1|].
    destruct (IH s2 H1 H2 E) as [-> ->]. now split.
Qed.

(** X24. When listener ids contain no hyphen, the routing identity
    determines the listener and the lower-cased username: two requests with
    the same routing identity come from the same listener and from
    usernames with the same lower-case form, so users of different
    listeners never share an identity (nor admin rights). *)
Theorem uid_determines_listener_and_user req1 req2 :
  byteIn (types.Listener req1) "-" = false ->
  byteIn (types.Listener req2) "-" = false ->
  uid_of req1 = uid_of req2 ->
  types.Listener req1 = types.Listener req2
  /\ ToLower (types.Username req1) = ToLower (types.Username req2).
Proof. intros H1 H2 E. exact (dash_split_unique _ _ _ _ H1 H2 E). Qed.

End Handling.

(* ===================================================================== *)
(** ** Further properties: the routing loop and listener removal          *)
(* ===================================================================== *)

Section Routing.

Context `{C : Collaborators}.

Implicit Types (self : Scarecrow) (inbox : list types.CommunicationChannel).

(** X18. A [Stopped] that names a listener which is not active changes
    nothing in the dispatcher; the emptiness test is made all the same, so
    the process exits (status 0) exactly when no listener was active. *)
Theorem OnStopped_of_inactive_listener self (ev : types.Stopped) :
  Listeners self !! types.ListenerId ev = None ->
  state (OnStopped self ev) = self
  /\ (exited (OnStopped self ev) = Some 0 <-> Listeners self = ∅)
  /\ (exited (OnStopped self ev) = None <-> Listeners self <> ∅).
Proof.
  intros Hnone. rewrite OnStopped_state, OnStopped_exited.
  rewrite (delete_id _ _ Hnone).
  split; [now destruct self|].
  case_decide; split; split; congruence.
Qed.

(** X19. A [Stopped] that names an active listener lowers the number of
    active listeners by one, and the process exits exactly when that
    listener was the only one. *)
Theorem OnStopped_of_active_listener self (ev : types.Stopped) :
  is_Some (Listeners self !! types.ListenerId ev) ->
  size (Listeners (state (OnStopped self ev))) = pred (size (Listeners self))
  /\ (exited (OnStopped self ev) = Some 0 <-> size (Listeners self) = 1%nat)
  /\ (exited (OnStopped self ev) = None <-> (1 < size (Listeners self))%nat).
Proof.
  intros Hact. rewrite OnStopped_state, OnStopped_exited.
  cbn [Listeners set_Listeners].
  pose proof (map_size_delete_Some _ _ Hact) as Hsize.
  assert (Hpos : size (Listeners self) <> 0%nat).
  { apply map_size_non_empty_iff. intros He. rewrite He, lookup_empty in Hact.
    now destruct Hact. }
  split; [exact Hsize|].
  case_decide as He.
  - apply map_size_empty_iff in He. split; split; try congruence; lia.
  - apply map_size_non_empty_iff in He. split; split; try congruence; lia.
Qed.

(** [OnStopped] calls in turn: the process exits at the first call after
    which no listener is left. *)
Lemma OnStopped_in_turn_spec (evs : list types.Stopped) :
  forall self,
    let r := OnStopped_in_turn self evs in
    (exited r = Some 0
     <-> evs <> []
         /\ forall id, is_Some (Listeners self !! id) -> id ∈ map types.ListenerId evs)
    /\ (exited r = None \/ exited r = Some 0)
    /\ (exited r = Some 0 -> Listeners (state r) = ∅)
    /\ AdminsConfig (state r) = AdminsConfig self.
Proof.
  induction evs as [|ev rest IH]; intros self; cbn zeta.
  { cbn. split; [split; [discriminate | now intros [? _]]|].
    split; [now left|]. split; [discriminate | reflexivity]. }
  cbn [OnStopped_in_turn]. cbn zeta.
  pose proof (OnStopped_exited self ev) as Hex.
  pose proof (OnStopped_state self ev) as Hst.
  destruct (decide (delete (types.ListenerId ev) (Listeners self) = ∅)) as [He|He].
  - rewrite Hex. cbv iota. rewrite ?Hex. split; [|split; [now right | split]].
    + split; [intros _ | reflexivity]. split; [discriminate|].
      intros id Hid. destruct (decide (id = types.ListenerId ev)) as [->|Hne].
      * cbn [map]. apply list_elem_of_here.
      * exfalso. apply (f_equal (fun m => m !! id)) in He.
        rewrite lookup_delete_ne, lookup_empty in He by congruence.
        rewrite He in Hid. now destruct Hid.
    + intros _. now rewrite Hst.
    + now rewrite Hst.
  - rewrite Hex. cbv iota. rewrite Hst.
    destruct (IH (set_Listeners self (delete (types.ListenerId ev) (Listeners self))))
      as (Hiff & Hcode & Hempty & Hadm).
    cbn [Listeners set_Listeners AdminsConfig] in Hiff, Hadm.
    split; [|split; [exact Hcode | split; [exact Hempty | exact Hadm]]].
    rewrite Hiff. cbn [map]. split.
    + intros [_ Hall]. split; [discriminate|]. intros id Hid.
      destruct (decide (id = types.ListenerId ev)) as [->|Hne];
        [apply list_elem_of_here|].
      apply list_elem_of_further. apply Hall. now rewrite lookup_delete_ne by congruence.
    + intros [_ Hall].
      assert (Hrest : forall id,
                is_Some (delete (types.ListenerId ev) (Listeners self) !! id) ->
                id ∈ map types.ListenerId rest).
      { intros id Hid. destruct (decide (id = types.ListenerId ev)) as [->|Hne].
        - rewrite lookup_delete_eq in Hid. now destruct Hid.
        - rewrite lookup_delete_ne in Hid by congruence.
          specialize (Hall id Hid). apply elem_of_cons in Hall as [E | Hin];
            [contradiction | exact Hin]. }
      split; [|exact Hrest].
      destruct (map_choose _ He) as (id & l & Hl).
      specialize (Hrest id (ex_intro _ l Hl)). intros ->. now apply elem_of_nil in Hrest.
Qed.

(** X20. Shutdown completes exactly when the last listener has reported:
    after a series of [Stopped] envelopes, handled in turn, the process has
    exited if and only if the series is not empty and names every listener
    that was active at the start.  The exit status is 0 and the
    mapping of active listeners is empty at the exit. *)
Theorem exit_when_every_listener_has_stopped self (evs : list types.Stopped) :
  let r := OnStopped_in_turn self evs in
  (exited r = Some 0
   <-> evs <> []
       /\ forall id, is_Some (Listeners self !! id) -> id ∈ map types.ListenerId evs)
  /\ (exited r = None \/ exited r = Some 0)
  /\ (exited r = Some 0 -> Listeners (state r) = ∅).
Proof.
  cbn zeta. destruct (OnStopped_in_turn_spec evs self) as (H1 & H2 & H3 & _).
  auto.
Qed.

(** One turn of the routing loop, by envelope variant. *)
Lemma ManageListener_cons self (env : types.CommunicationChannel) inbox (answer : chan) :
  ManageListener self (env :: inbox) answer
  = match exited (fst (ManageListener_step self env answer)) with
    | Some _ => ManageListener_step self env answer
    | None =>
        (fst (ManageListener (state (fst (ManageListener_step self env answer)))
                             inbox answer),
         snd (ManageListener_step self env answer)
         ++ snd (ManageListener (state (fst (ManageListener_step self env answer)))
                                inbox answer))
    end.
Proof.
  cbn [ManageListener]. destruct (ManageListener_step self env answer) as [r tr].
  cbn [fst snd]. destruct (exited r); [reflexivity|].
  now destruct (ManageListener (state r) inbox answer).
Qed.

Lemma ManageListener_step_request self (req : types.ReplyRequest) (answer : chan) :
  ManageListener_step self
    (types.mkCommunicationChannel (types.DReplyRequest req)) answer
  = (mkResult (fst (OnMessage self req answer)) None, snd (OnMessage self req answer)).
Proof.
  unfold ManageListener_step. cbn [types.Data_].
  now destruct (OnMessage self req answer).
Qed.

Lemma OnMessage_answered_users self (req : types.ReplyRequest) (res : chan) :
  answered_users res (snd (OnMessage self req res)) = [types.Username req].
Proof.
  destruct (OnMessage_cases self req res)
    as [[-> _] | (Ha & self' & reply & deferred & tr1 & Hb & Hne & ->)]; cbn [snd].
  - cbn. now rewrite Nat.eqb_refl.
  - destruct (command_branch_views _ _ _ _ _ _ res Hb) as (_ & _ & _ & Hu & _).
    destruct (Shutdown_views self' res) as (_ & _ & _ & _ & Hus).
    rewrite !answered_users_app, Hu. cbn. rewrite Nat.eqb_refl.
    destruct deferred; [now rewrite Hus | reflexivity].
Qed.

(** X21. A routing task answers the requests of its listener one by one
    and in order: the users its [ReplyAnswer]s are addressed to are a
    prefix of the users of the [ReplyRequest]s in its inbox, and all of
    them when the process has not exited.  It exits only with status 0,
    and never when its inbox holds no [Stopped] envelope. *)
Theorem ManageListener_answers_in_order self inbox (answer : chan) :
  let r := fst (ManageListener self inbox answer) in
  let tr := snd (ManageListener self inbox answer) in
  answered_users answer tr `prefix_of` map types.Username (reply_requests inbox)
  /\ (exited r = None ->
      answered_users answer tr = map types.Username (reply_requests inbox))
  /\ (exited r = None \/ exited r = Some 0)
  /\ ((forall env ev, env ∈ inbox -> types.Data_ env <> types.DStopped ev) ->
      exited r = None).
Proof.
  cbn zeta. revert self. induction inbox as [|env inbox IH]; intros self.
  { cbn. split; [reflexivity|]. auto. }
  rewrite ManageListener_cons.
  assert (Htail : forall env' ev, (forall env0 ev0, env0 ∈ env :: inbox ->
                                     types.Data_ env0 <> types.DStopped ev0) ->
                                  env' ∈ inbox -> types.Data_ env' <> types.DStopped ev).
  { intros env' ev H Hin. apply H. now right. }
  destruct env as [[req | a | | ev | ]].
  - rewrite ManageListener_step_request. cbn [fst snd exited state].
    destruct (IH (fst (OnMessage self req answer))) as (Hpre & Heq & Hcode & Hno).
    rewrite answered_users_app, OnMessage_answered_users. cbn [reply_requests map app].
    split; [now apply prefix_cons|]. split; [intros Hex; f_equal; auto|].
    split; [exact Hcode|]. intros H. apply Hno. intros env' ev Hin. now apply Htail.
  - cbn [ManageListener_step types.Data_ fst snd exited state app reply_requests].
    destruct (IH self) as (Hpre & Heq & Hcode & Hno).
    split; [exact Hpre|]. split; [exact Heq|]. split; [exact Hcode|].
    intros H. apply Hno. intros env' ev' Hin. exact (Htail env' ev' H Hin).
  - cbn [ManageListener_step types.Data_ fst snd exited state app reply_requests].
    destruct (IH self) as (Hpre & Heq & Hcode & Hno).
    split; [exact Hpre|]. split; [exact Heq|]. split; [exact Hcode|].
    intros H. apply Hno. intros env' ev' Hin. exact (Htail env' ev' H Hin).
  - cbn [ManageListener_step types.Data_ fst snd reply_requests].
    rewrite OnStopped_exited.
    case_decide as He.
    + cbn [fst snd]. rewrite OnStopped_exited.
      case_decide; [|contradiction]. cbn.
      split; [apply prefix_nil|]. split; [discriminate|]. split; [now right|].
      intros Hns. exfalso. apply (Hns _ ev (list_elem_of_here _ _)). reflexivity.
    + cbn [fst snd app].
      destruct (IH (state (OnStopped self ev))) as (Hpre & Heq & Hcode & Hno).
      split; [exact Hpre|]. split; [exact Heq|]. split; [exact Hcode|].
      intros Hns. exfalso. apply (Hns _ ev (list_elem_of_here _ _)). reflexivity.
  - cbn [ManageListener_step types.Data_ fst snd exited state app reply_requests].
    destruct (IH self) as (Hpre & Heq & Hcode & Hno).
    split; [exact Hpre|]. split; [exact Heq|]. split; [exact Hcode|].
    intros H. apply Hno. intros env' ev' Hin. exact (Htail env' ev' H Hin).
Qed.

(** With one range order standing for every range over a map, a run on
    an inbox and a run on the inbox without the envelopes of unknown
    variants are the same. *)
Lemma ManageListener_filter_handled self inbox (answer : chan) :
  ManageListener self inbox answer
  = ManageListener self (List.filter handled_variant inbox) answer.
Proof.
  revert self. induction inbox as [|env inbox IH]; intros self; [reflexivity|].
  cbn [List.filter].
  destruct (handled_variant env) eqn:Hv.
  - rewrite !ManageListener_cons.
    destruct (exited (fst (ManageListener_step self env answer))); [reflexivity|].
    now rewrite IH.
  - rewrite ManageListener_cons, <- IH.
    destruct env as [[req | a | | ev | ]]; try discriminate Hv;
      cbn [ManageListener_step types.Data_ fst snd exited state app];
      now destruct (ManageListener self inbox answer).
Qed.

(** X22. Envelopes of a variant the routing loop has no case for
    ([ReplyAnswer], [Stop], anything else) are dropped without any effect:
    on the inbox and on the inbox without them the loop ends in the same
    state with the same exit status, performs the same events other than
    the sends of [Stop{}] in the same order, and sends the same [Stop{}]s
    (the order inside a shutdown broadcast is the order of the range over
    the map, which is not fixed). *)
Theorem ManageListener_drops_unknown_envelopes self inbox (answer : chan) :
  let full := ManageListener self inbox answer in
  let kept := ManageListener self (List.filter handled_variant inbox) answer in
  fst full = fst kept
  /\ without_stops (snd full) = without_stops (snd kept)
  /\ snd full ≡ₚ snd kept.
Proof.
  cbn zeta. rewrite <- ManageListener_filter_handled. now repeat split.
Qed.

(** X23. As long as every request comes from a user who is not an admin,
    a routing task leaves the admin list as it is, saves nothing, logs no
    transaction and sends no [Stop{}]: users outside the admin list cannot
    grant themselves anything, however many messages they send. *)
Theorem ManageListener_without_admins_keeps_admins self inbox (answer : chan) :
  (forall req, req ∈ reply_requests inbox ->
               ~ In (uid_of req) (types.Admins (AdminsConfig self))) ->
  let r := fst (ManageListener self inbox answer) in
  let tr := snd (ManageListener self inbox answer) in
  AdminsConfig (state r) = AdminsConfig self
  /\ saved_configs tr = []
  /\ transactions tr = []
  /\ Forall (fun s => snd s <> stop_envelope) (sends tr).
Proof.
  cbn zeta. revert self. induction inbox as [|env inbox IH]; intros self Hna.
  { cbn. repeat split. constructor. }
  rewrite ManageListener_cons.
  destruct env as [[req | a | | ev | ]].
  - rewrite ManageListener_step_request. cbn [fst snd exited state].
    assert (Hreq : IsAdmin self (uid_of req) = false).
    { apply IsAdmin_false_iff. apply Hna. cbn. apply list_elem_of_here. }
    rewrite (OnMessage_not_admin self req answer Hreq). cbn [fst snd].
    destruct (IH (set_Brain self
                    (snd (GetReply (Brain self) (types.BotUsername req) (uid_of req)
                                   (types.Message req) (types.GroupChat req)))))
      as (Hadm & Hsv & Htx & Hst).
    { intros req' Hin. cbn [AdminsConfig set_Brain]. apply Hna. cbn.
      now apply list_elem_of_further. }
    rewrite saved_configs_app, transactions_app, sends_app, Hsv, Htx.
    cbn [AdminsConfig set_Brain] in Hadm.
    repeat split; try assumption.
    cbn. constructor; [discriminate | exact Hst].
  - cbn [ManageListener_step types.Data_ fst snd exited state app].
    apply IH. intros req' Hin. now apply Hna.
  - cbn [ManageListener_step types.Data_ fst snd exited state app].
    apply IH. intros req' Hin. now apply Hna.
  - cbn [ManageListener_step types.Data_ fst snd].
    pose proof (OnStopped_state self ev) as Hstate.
    destruct (exited (OnStopped self ev)).
    + cbn [fst snd]. rewrite Hstate. repeat split. constructor.
    + cbn [app]. rewrite Hstate.
      destruct (IH (set_Listeners self (delete (types.ListenerId ev) (Listeners self))))
        as (Hadm & Hsv & Htx & Hst).
      { intros req' Hin. cbn [AdminsConfig set_Listeners]. now apply Hna. }
      repeat split; assumption.
  - cbn [ManageListener_step types.Data_ fst snd exited state app].
    apply IH. intros req' Hin. now apply Hna.
Qed.

(** X25. Activation and removal compose: after [StartAllBots] has started
    the enabled registrations of a configuration with distinct ids and
    registered types, from a dispatcher with no active listener, a series of
    [Stopped] envelopes makes the process exit (status 0) if and only if it
    is not empty and names every enabled registration. *)
Theorem started_listeners_stop_then_exit self (evs : list types.Stopped) :
  Ready (DB_ self) = true ->
  Listeners self = ∅ ->
  constructible (types.Listeners (BotsConfig self)) ->
  NoDup (enabled_ids (types.Listeners (BotsConfig self))) ->
  let running := state (fst (StartAllBots self)) in
  exited (fst (StartAllBots self)) = None
  /\ (exited (OnStopped_in_turn running evs) = Some 0
      <-> evs <> []
          /\ forall id, id ∈ enabled_ids (types.Listeners (BotsConfig self)) ->
                        id ∈ map types.ListenerId evs).
Proof.
  intros Hready Hempty Hcons Hnd. cbn zeta.
  assert (Hfree : forall id, id ∈ enabled_ids (types.Listeners (BotsConfig self)) ->
                             Listeners self !! id = None).
  { intros id _. rewrite Hempty. apply lookup_empty. }
  unfold StartAllBots. rewrite Hready. cbn [negb].
  destruct (StartAllBots_loop_keeps (types.Listeners (BotsConfig self)) self)
    as (_ & _ & _ & Hdom & _).
  destruct (StartAllBots_loop_distinct _ self Hnd Hfree) as [Hex Hst].
  specialize (Hst Hcons). cbn zeta in Hdom. rewrite Hst, Hempty, dom_empty_L in Hdom.
  split; [exact Hex|].
  destruct (OnStopped_in_turn_spec evs
              (state (fst (StartAllBots_loop (types.Listeners (BotsConfig self)) self))))
    as (Hiff & _).
  rewrite Hiff. split; intros [Hne Hall]; (split; [exact Hne|]); intros id Hid.
  - apply Hall. apply elem_of_dom. rewrite Hdom. set_solver.
  - apply Hall. apply elem_of_dom in Hid. rewrite Hdom in Hid. set_solver.
Qed.

End Routing.

(* ===================================================================== *)
(** ** The functions run on sample inputs                                 *)
(* ===================================================================== *)

Section Runs.

Import GoStrings GoRegexp.

#[local] Existing Instance echo_world.

(** C1 as stated fails: with the id [A] registered twice, [StartAllBots]
    exits with status 1, but the first listener [A] has been started by
    then. *)
Lemma duplicate_id_first_listener_already_started :
  let self := startup_state true
                [types.mkListenerConfig "A" "Console" true;
                 types.mkListenerConfig "A" "Console" true] in
  enabled_ids (types.Listeners (BotsConfig self)) = ["A"; "A"]
  /\ exited (fst (StartAllBots self)) = Some 1
  /\ started_ids (snd (StartAllBots self)) = ["A"]
  /\ ~ (exited (fst (StartAllBots self)) <> None
        /\ started_ids (snd (StartAllBots self)) = []).
Proof.
  cbn zeta. repeat split; try reflexivity.
  intros [_ H]. vm_compute in H. discriminate.
Qed.

(** With the storage not ready nothing is started and nothing exits. *)
Example duplicate_id_storage_not_ready :
  StartAllBots (startup_state false duplicate_config)
  = (mkResult (startup_state false duplicate_config) None, []).
Proof. reflexivity. Qed.

(** A registration whose type is not registered is skipped and its id is
    not recorded: a later registration with the same id starts normally. *)
Example duplicate_id_unregistered_type :
  let self := startup_state true
                [types.mkListenerConfig "A" "IRC" true;
                 types.mkListenerConfig "A" "Console" true] in
  exited (fst (StartAllBots self)) = None
  /\ started_ids (snd (StartAllBots self)) = ["A"].
Proof. split; reflexivity. Qed.

Lemma duplicate_config_constructible :
  @constructible echo_world duplicate_config.
Proof.
  intros cfg Hin _ request answer. unfold duplicate_config in Hin.
  repeat (apply elem_of_cons in Hin as [-> | Hin]); try (eexists; reflexivity).
  now apply elem_of_nil in Hin.
Defined.

Lemma duplicate_config_not_NoDup : ~ NoDup (enabled_ids duplicate_config).
Proof.
  intros H. change (NoDup ["A"; "B"; "A"; "C"]) in H.
  apply NoDup_cons in H as [H _]. apply H.
  apply list_elem_of_further, list_elem_of_here.
Defined.

Lemma duplicate_id_exits_at_second_occurrence_run :
  Ready (DB_ (startup_state true duplicate_config)) = true
  /\ Listeners (startup_state true duplicate_config) = ∅
  /\ exists pre dup post,
       List.filter types.Enabled duplicate_config = pre ++ dup :: post
       /\ NoDup (map types.Id pre)
       /\ types.Id dup ∈ map types.Id pre
       /\ exited (fst (StartAllBots (startup_state true duplicate_config))) = Some 1
       /\ started_ids (snd (StartAllBots (startup_state true duplicate_config)))
          = map types.Id pre.
Proof.
  split; [reflexivity|]. split; [reflexivity|].
  apply (duplicate_id_exits_at_second_occurrence (startup_state true duplicate_config)).
  - reflexivity.
  - reflexivity.
  - exact duplicate_config_constructible.
  - exact duplicate_config_not_NoDup.
Defined.

Example duplicate_config_run :
  exited (fst (StartAllBots (startup_state true duplicate_config))) = Some 1
  /\ started_ids (snd (StartAllBots (startup_state true duplicate_config))) = ["A"; "B"].
Proof. split; reflexivity. Qed.

Lemma stopped_removes_entry_run :
  let r := ManageListener_step bob_state
             (types.mkCommunicationChannel (types.DStopped (types.mkStopped "A")))
             2%nat in
  "A" <> "B"
  /\ Listeners (state (fst r)) = {["B" := listeners.mkListener 3%nat]}
  /\ exited (fst r) = None.
Proof.
  assert (Hne : "A" <> "B") by discriminate.
  split; [exact Hne|].
  destruct (stopped_removes_entry_and_exits_iff_empty bob_state "A" 2%nat)
    as (_ & _ & _ & _ & _ & _ & Htwo & _).
  exact (Htwo "B" (listeners.mkListener 1%nat) (listeners.mkListener 3%nat) Hne eq_refl).
Defined.

Lemma halt_reply_sent_before_shutdown_run :
  IsAdmin bob_state (uid_of (bob_says "  !halt now ")) = true
  /\ Index (input_of (bob_says "  !halt now ")) "!halt" = 0
  /\ exists stops,
       snd (OnMessage bob_state (bob_says "  !halt now ") 7%nat)
       = [EvLogTransaction "console-bob" "!halt now" "Scarecrow" "Shutting down...";
          EvSend 7%nat (answer_envelope "Bob" "Shutting down...")] ++ stops
       /\ stops = Shutdown bob_state
       /\ stops ≡ₚ map (fun e => EvSend (listeners.InputChannel (snd e)) stop_envelope)
                       (map_to_list (Listeners bob_state))
       /\ fst (OnMessage bob_state (bob_says "  !halt now ") 7%nat) = bob_state.
Proof.
  split; [reflexivity|]. split; [reflexivity|].
  apply (halt_reply_sent_before_shutdown bob_state (bob_says "  !halt now ") 7%nat);
    reflexivity.
Defined.

Example halt_run :
  snd (OnMessage bob_state (bob_says "  !halt now ") 7%nat)
  = [EvLogTransaction "console-bob" "!halt now" "Scarecrow" "Shutting down...";
     EvSend 7%nat (answer_envelope "Bob" "Shutting down...");
     EvSend 1%nat stop_envelope;
     EvSend 3%nat stop_envelope].
Proof. vm_compute. reflexivity. Qed.

(** C4 as stated fails: when the reply engine returns the empty text, the
    reply sent to the listener is empty. *)
Lemma silent_engine_reply_is_empty :
  snd (OnMessage silent_state (eve_says "hello") 7%nat)
  = [EvGetReply "Scarecrow" "slack-eve" "hello" true;
     EvSend 7%nat (answer_envelope "Eve" "")]
  /\ replies_on 7%nat (snd (OnMessage silent_state (eve_says "hello") 7%nat)) = [""].
Proof. split; reflexivity. Qed.

Lemma op_alice_then_deop_alice_run :
  ~ In "alice" (types.Admins (AdminsConfig bob_state))
  /\ input_of (bob_says " !op alice") = "!op alice"
  /\ input_of (bob_says "!deop alice ") = "!deop alice"
  /\ let after := fst (OnMessage (fst (OnMessage bob_state (bob_says " !op alice") 7%nat))
                                 (bob_says "!deop alice ") 7%nat) in
     types.Admins (AdminsConfig after) = types.Admins (AdminsConfig bob_state)
     /\ after = bob_state.
Proof.
  assert (Hfresh : ~ In "alice" (types.Admins (AdminsConfig bob_state))).
  { simpl. intros [H | []]. discriminate. }
  split; [exact Hfresh|]. split; [reflexivity|]. split; [reflexivity|].
  apply (op_alice_then_deop_alice_roundtrip bob_state (bob_says " !op alice")
           (bob_says "!deop alice ") 7%nat 7%nat Hfresh); reflexivity.
Defined.

Lemma malformed_op_run :
  IsAdmin bob_state (uid_of (bob_says "!op bad name!")) = true
  /\ class_plus name_class "bad name!" = false
  /\ OnMessage bob_state (bob_says "!op bad name!") 7%nat
     = (bob_state,
        [EvLogTransaction "console-bob" "!op bad name!" "Scarecrow" "Syntax error.";
         EvSend 7%nat (answer_envelope "Bob" "Syntax error.")]).
Proof.
  split; [reflexivity|]. split; [reflexivity|].
  apply (malformed_op_deop_is_syntax_error bob_state (bob_says "!op bad name!") 7%nat
           "!op" "bad name!"); [reflexivity | now left | reflexivity | reflexivity].
Defined.

Lemma non_admin_command_forwarded_run :
  ~ In (uid_of (eve_says " !halt ")) (types.Admins (AdminsConfig bob_state))
  /\ snd (OnMessage bob_state (eve_says " !halt ") 7%nat)
     = [EvGetReply "Scarecrow" "slack-eve" " !halt " true;
        EvSend 7%nat (answer_envelope "Eve" "You said:  !halt ")]
  /\ fst (OnMessage bob_state (eve_says " !halt ") 7%nat) = set_Brain bob_state tt.
Proof.
  assert (Hna : ~ In (uid_of (eve_says " !halt ")) (types.Admins (AdminsConfig bob_state))).
  { simpl. intros [H | []]. vm_compute in H. discriminate. }
  split; [exact Hna|].
  exact (non_admin_message_forwarded_verbatim bob_state (eve_says " !halt ") 7%nat Hna).
Defined.

(** C8 as stated fails: a leading tab is not removed, so an admin's
    [<tab>!halt] is not recognised as a command and goes to the reply
    engine, where the trimming the specification describes would give
    [!halt]. *)
Lemma leading_tab_is_not_trimmed :
  let raw := String "009" "!halt" in
  input_of (bob_says raw) = raw
  /\ trim_whitespace_spec raw = "!halt"
  /\ input_of (bob_says raw) <> trim_whitespace_spec raw
  /\ IsAdmin bob_state (uid_of (bob_says raw)) = true
  /\ snd (OnMessage bob_state (bob_says raw) 7%nat)
     = [EvGetReply "Scarecrow" "console-bob" raw false;
        EvSend 7%nat (answer_envelope "Bob" ("You said: " +:+ raw))].
Proof.
  cbn zeta. repeat split; try reflexivity. discriminate.
Qed.

Lemma op_carol_admits_nobody_run :
  byteIn "carol" "-" = false
  /\ class_plus name_class "carol" = true
  /\ types.Admins (AdminsConfig (fst (OnMessage bob_state (bob_says "!op carol") 7%nat)))
     = ["console-bob"; "carol"]
  /\ forall req',
       IsAdmin (fst (OnMessage bob_state (bob_says "!op carol") 7%nat)) (uid_of req')
       = IsAdmin bob_state (uid_of req').
Proof.
  split; [reflexivity|]. split; [reflexivity|].
  destruct (op_name_without_hyphen_admits_nobody bob_state (bob_says "!op carol") 7%nat
              "carol" eq_refl eq_refl eq_refl eq_refl) as (_ & _ & Happ & _ & Hsame).
  split; [exact Happ | exact Hsame].
Defined.

Lemma reload_leaves_admins_run :
  Index (input_of (bob_says "!reload extra text")) "!reload" = 0
  /\ AdminsConfig (fst (OnMessage bob_state (bob_says "!reload extra text") 7%nat))
     = AdminsConfig bob_state.
Proof.
  split; [reflexivity|].
  apply (admins_unchanged_outside_successful_op_deop bob_state
           (bob_says "!reload extra text") 7%nat).
  right. left. reflexivity.
Defined.

(** The end-to-end run of the specification: [console-bob] grants [carol]. *)
Example op_carol_run :
  OnMessage bob_state (bob_says "!op carol") 7%nat
  = (set_AdminsConfig bob_state (types.mkAdminsConfig ["console-bob"; "carol"]),
     [EvSaveAdminsConfig (types.mkAdminsConfig ["console-bob"; "carol"]);
      EvLogTransaction "console-bob" "!op carol" "Scarecrow"
                       "carol added to the admins list.";
      EvSend 7%nat (answer_envelope "Bob" "carol added to the admins list.")]).
Proof. reflexivity. Qed.

(** Command precedence: trailing text does not stop [!reload]. *)
Example reload_extra_text_run :
  snd (OnMessage bob_state (bob_says "!reload extra text") 7%nat)
  = [EvInitBrain;
     EvLogTransaction "console-bob" "!reload extra text" "Scarecrow" "Brain reloaded!";
     EvSend 7%nat (answer_envelope "Bob" "Brain reloaded!")].
Proof. reflexivity. Qed.

End Runs.

(* ===================================================================== *)
(** ** The further properties on sample inputs                            *)
(* ===================================================================== *)

Section MoreRuns.

Import GoStrings GoRegexp.

#[local] Existing Instance echo_world.

Lemma distinct_config_constructible : @constructible echo_world distinct_config.
Proof.
  intros cfg Hin Hen request answer. unfold distinct_config in Hin.
  repeat (apply elem_of_cons in Hin as [-> | Hin]);
    try (eexists; reflexivity); try discriminate Hen.
  now apply elem_of_nil in Hin.
Defined.

Lemma distinct_config_NoDup : NoDup (enabled_ids distinct_config).
Proof.
  change (NoDup ["A"; "B"]).
  apply NoDup_cons. split.
  - intros Hin. apply list_elem_of_singleton in Hin. discriminate.
  - apply NoDup_singleton.
Defined.

Lemma no_listener_active (cfgs : list types.ListenerConfig) :
  forall id, id ∈ enabled_ids cfgs -> Listeners (startup_state true cfgs) !! id = None.
Proof. intros id _. apply lookup_empty. Defined.

Lemma StartAllBots_exits_only_on_collision_run :
  exited (fst (StartAllBots (startup_state true distinct_config))) = None.
Proof.
  apply (StartAllBots_exits_only_on_collision (startup_state true distinct_config)).
  - exact distinct_config_NoDup.
  - exact (no_listener_active distinct_config).
Defined.

Lemma StartAllBots_starts_every_enabled_run :
  Ready (DB_ (startup_state true distinct_config)) = true
  /\ exited (fst (StartAllBots (startup_state true distinct_config))) = None
  /\ started_ids (snd (StartAllBots (startup_state true distinct_config))) = ["A"; "B"].
Proof.
  split; [reflexivity|].
  destruct (StartAllBots_starts_every_enabled (startup_state true distinct_config)
              eq_refl distinct_config_constructible distinct_config_NoDup
              (no_listener_active distinct_config)) as (Hex & Hst & _).
  split; [exact Hex | exact Hst].
Defined.

Lemma restart_state_channels_made_before :
  forall id bot, Listeners restart_state !! id = Some bot ->
                 (listeners.InputChannel bot < NextChan restart_state)%nat.
Proof.
  intros id bot H. change (two_listeners !! id = Some bot) in H.
  unfold two_listeners in H.
  apply lookup_insert_Some in H as [[_ <-] | [_ H]]; [cbn; lia|].
  apply lookup_singleton_Some in H as [_ <-]. cbn. lia.
Defined.

Lemma StartAllBots_channels_are_fresh_run :
  spawned_channels (snd (StartAllBots restart_state)) = [4; 5; 6; 7]%nat
  /\ forall c, c ∈ spawned_channels (snd (StartAllBots restart_state)) ->
               c <> 1%nat /\ c <> 3%nat.
Proof.
  split; [reflexivity|]. intros c Hc.
  destruct (StartAllBots_channels_are_fresh restart_state) as [_ Hfresh].
  specialize (Hfresh restart_state_channels_made_before c).
  split.
  - exact (Hfresh "A" (listeners.mkListener 1%nat) Hc eq_refl).
  - exact (Hfresh "B" (listeners.mkListener 3%nat) Hc eq_refl).
Defined.

Lemma reload_ignores_trailing_text_run :
  IsAdmin bob_state (uid_of (bob_says "!reload extra text")) = true
  /\ HasPrefix (input_of (bob_says "!reload extra text")) "!reload" = true
  /\ OnMessage bob_state (bob_says "!reload extra text") 7%nat
     = (set_Brain bob_state tt,
        [EvInitBrain;
         EvLogTransaction "console-bob" "!reload extra text" "Scarecrow" "Brain reloaded!";
         EvSend 7%nat (answer_envelope "Bob" "Brain reloaded!")]).
Proof.
  split; [reflexivity|]. split; [reflexivity|].
  exact (reload_ignores_trailing_text bob_state (bob_says "!reload extra text") 7%nat
           eq_refl eq_refl).
Defined.

Lemma operator_is_no_name (name : string) :
  input_of (bob_says "!operator please") = "!op" +:+ " " +:+ name ->
  class_plus name_class name = false.
Proof. intros H. vm_compute in H. discriminate H. Defined.

Lemma op_deop_prefix_without_name_run :
  IsAdmin bob_state (uid_of (bob_says "!operator please")) = true
  /\ HasPrefix (input_of (bob_says "!operator please")) "!op" = true
  /\ OnMessage bob_state (bob_says "!operator please") 7%nat
     = (bob_state,
        [EvLogTransaction "console-bob" "!operator please" "Scarecrow" "Syntax error.";
         EvSend 7%nat (answer_envelope "Bob" "Syntax error.")]).
Proof.
  split; [reflexivity|]. split; [reflexivity|].
  exact (op_deop_prefix_without_name_is_syntax_error bob_state
           (bob_says "!operator please") 7%nat "!op" eq_refl (or_introl eq_refl) eq_refl
           operator_is_no_name).
Defined.

Lemma op_appends_and_admits_name_run :
  IsAdmin bob_state (uid_of (bob_says "!op slack-eve")) = true
  /\ class_plus name_class "slack-eve" = true
  /\ IsAdmin (fst (OnMessage bob_state (bob_says "!op slack-eve") 7%nat))
             (uid_of (eve_says "hello")) = true.
Proof.
  split; [reflexivity|]. split; [reflexivity|].
  destruct (op_appends_and_admits_name bob_state (bob_says "!op slack-eve") 7%nat
              "slack-eve" eq_refl eq_refl eq_refl) as [_ Hadm].
  rewrite Hadm. reflexivity.
Defined.

Lemma deop_removes_every_occurrence_run :
  IsAdmin bob_state (uid_of (bob_says "!deop dave")) = true
  /\ class_plus name_class "dave" = true
  /\ OnMessage bob_state (bob_says "!deop dave") 7%nat
     = (set_AdminsConfig bob_state (types.mkAdminsConfig ["console-bob"]),
        [EvSaveAdminsConfig (types.mkAdminsConfig ["console-bob"]);
         EvLogTransaction "console-bob" "!deop dave" "Scarecrow"
                          "dave removed from the admins list.";
         EvSend 7%nat (answer_envelope "Bob" "dave removed from the admins list.")]).
Proof.
  split; [reflexivity|]. split; [reflexivity|].
  destruct (deop_removes_every_occurrence bob_state (bob_says "!deop dave") 7%nat
              "dave" eq_refl eq_refl eq_refl) as [Hrun _].
  exact Hrun.
Defined.

Lemma op_then_deop_removes_earlier_entries_run :
  In "console-bob" (types.Admins (AdminsConfig bob_state))
  /\ types.Admins
       (AdminsConfig
          (fst (OnMessage (fst (OnMessage bob_state (bob_says "!op console-bob") 7%nat))
                          (bob_says "!deop console-bob") 7%nat)))
     = [].
Proof.
  split; [now left|].
  destruct (op_then_deop_removes_earlier_entries bob_state
              (bob_says "!op console-bob") (bob_says "!deop console-bob") 7%nat 7%nat
              "console-bob" eq_refl eq_refl eq_refl eq_refl eq_refl) as [Hlist _].
  exact Hlist.
Defined.


Lemma spaces_around_a_command_run :
  IsAdmin bob_state (uid_of (bob_says "!op carol")) = true
  /\ HasPrefix (input_of (bob_says "!op carol")) "!op" = true
  /\ OnMessage bob_state (padded 2 3 (bob_says "!op carol")) 7%nat
     = OnMessage bob_state (bob_says "!op carol") 7%nat.
Proof.
  split; [reflexivity|]. split; [reflexivity|].
  destruct (spaces_around_a_command_are_irrelevant bob_state (bob_says "!op carol")
              7%nat 2 3) as (_ & _ & Hsame & _).
  apply Hsame; [reflexivity|]. right. left. reflexivity.
Defined.

Lemma OnStopped_of_inactive_listener_run :
  Listeners bob_state !! "Z" = None
  /\ state (OnStopped bob_state (types.mkStopped "Z")) = bob_state
  /\ exited (OnStopped bob_state (types.mkStopped "Z")) = None.
Proof.
  assert (Hnone : Listeners bob_state !! "Z" = None) by reflexivity.
  split; [exact Hnone|].
  destruct (OnStopped_of_inactive_listener bob_state (types.mkStopped "Z") Hnone)
    as (Hst & _ & Hex).
  split; [exact Hst|]. apply Hex.
  intros He. apply (f_equal (fun m => m !! "A")) in He. discriminate He.
Defined.

Lemma OnStopped_of_active_listener_run :
  is_Some (Listeners bob_state !! "A")
  /\ size (Listeners (state (OnStopped bob_state (types.mkStopped "A")))) = 1%nat.
Proof.
  assert (Hact : is_Some (Listeners bob_state !! "A")) by (eexists; reflexivity).
  split; [exact Hact|].
  destruct (OnStopped_of_active_listener bob_state (types.mkStopped "A") Hact)
    as (Hsize & _).
  rewrite Hsize. reflexivity.
Defined.

Lemma eve_is_no_admin :
  forall req, req ∈ reply_requests eve_inbox ->
              ~ In (uid_of req) (types.Admins (AdminsConfig bob_state)).
Proof.
  intros req Hin. cbn in Hin.
  repeat (apply elem_of_cons in Hin as [-> | Hin]);
    try (intros [H | []]; vm_compute in H; discriminate H).
  now apply elem_of_nil in Hin.
Defined.

Lemma ManageListener_without_admins_run :
  AdminsConfig (state (fst (ManageListener bob_state eve_inbox 7%nat)))
  = AdminsConfig bob_state
  /\ saved_configs (snd (ManageListener bob_state eve_inbox 7%nat)) = [].
Proof.
  destruct (ManageListener_without_admins_keeps_admins bob_state eve_inbox 7%nat
              eve_is_no_admin) as (Hadm & Hsv & _).
  split; [exact Hadm | exact Hsv].
Defined.

Lemma uid_determines_listener_and_user_run :
  byteIn (types.Listener (bob_says "hi")) "-" = false
  /\ uid_of (bob_says "hi")
     = uid_of (types.mkReplyRequest "console" "BOB" "Scarecrow" "bye" true)
  /\ ToLower "Bob" = ToLower "BOB".
Proof.
  assert (E : uid_of (bob_says "hi")
              = uid_of (types.mkReplyRequest "console" "BOB" "Scarecrow" "bye" true))
    by reflexivity.
  split; [reflexivity|]. split; [exact E|].
  destruct (uid_determines_listener_and_user (bob_says "hi")
              (types.mkReplyRequest "console" "BOB" "Scarecrow" "bye" true)
              eq_refl eq_refl E) as [_ Hlow].
  exact Hlow.
Defined.

(** With a hyphen in a listener id two different listeners can give one
    routing identity. *)
Example uid_collision_with_hyphen :
  uid_of (types.mkReplyRequest "team-a" "bob" "Scarecrow" "hi" false)
  = uid_of (types.mkReplyRequest "team" "a-bob" "Scarecrow" "hi" false).
Proof. reflexivity. Qed.

Lemma started_listeners_stop_then_exit_run :
  Ready (DB_ (startup_state true distinct_config)) = true
  /\ Listeners (startup_state true distinct_config) = ∅
  /\ exited (OnStopped_in_turn
               (state (fst (StartAllBots (startup_state true distinct_config))))
               [types.mkStopped "B"; types.mkStopped "A"]) = Some 0.
Proof.
  split; [reflexivity|]. split; [reflexivity|].
  destruct (started_listeners_stop_then_exit (startup_state true distinct_config)
              [types.mkStopped "B"; types.mkStopped "A"] eq_refl eq_refl
              distinct_config_constructible distinct_config_NoDup) as [_ Hiff].
  apply Hiff. split; [discriminate|].
  intros id Hid. change (id ∈ ["A"; "B"]) in Hid. change (id ∈ ["B"; "A"]).
  apply elem_of_cons in Hid as [-> | Hid];
    [apply list_elem_of_further, list_elem_of_here|].
  apply list_elem_of_singleton in Hid as ->. apply list_elem_of_here.
Defined.

(** The routing task on [Eve]'s inbox: two answers, the unknown envelope in
    between is dropped. *)
Example eve_inbox_run :
  snd (ManageListener bob_state eve_inbox 7%nat)
  = [EvGetReply "Scarecrow" "slack-eve" "!op slack-eve" true;
     EvSend 7%nat (answer_envelope "Eve" "You said: !op slack-eve");
     EvGetReply "Scarecrow" "slack-eve" "!halt" true;
     EvSend 7%nat (answer_envelope "Eve" "You said: !halt")].
Proof. reflexivity. Qed.

(** Both listeners report: the process exits at the second report. *)
Example both_listeners_stop_run :
  exited (OnStopped_in_turn bob_state [types.mkStopped "B"]) = None
  /\ exited (OnStopped_in_turn bob_state [types.mkStopped "B"; types.mkStopped "A"])
     = Some 0.
Proof. split; vm_compute; reflexivity. Qed.

End MoreRuns.
